(** * configured_mail_sender: credential store and sender factory

    A shallow embedding of [configured_mail_sender/mail_sender.py]:
    the [MailSender] base class (credential file handling) and the
    [mail_sender] factory (protocol dispatch), written as programs over the
    operating-system and library calls the Python code makes. *)

From Stdlib Require Import Ascii String ZArith.
From stdpp Require Import gmap strings list fin_maps.

#[local] Set Warnings "-register-all".
#[local] Open Scope string_scope.

(** ** Python values

    The values YAML documents denote and that [yaml.safe_dump] can write
    back: [None], booleans, integers, strings, lists, and dicts with string
    keys.  A dict is a finite map: neither the credential file nor the
    domain table depends on key order ([safe_dump] sorts the keys). *)

Inductive pyval : Type :=
| PyNone
| PyBool (b : bool)
| PyInt (n : Z)
| PyStr (s : string)
| PyList (l : list pyval)
| PyDict (d : gmap string pyval).

(** Python truth value: [bool(v)]. *)
Definition truthy (v : pyval) : bool :=
  match v with
  | PyNone => false
  | PyBool b => b
  | PyInt n => negb (n =? 0)%Z
  | PyStr s => negb (String.eqb s "")
  | PyList l => match l with [] => false | _ :: _ => true end
  | PyDict d => negb (bool_decide (d = ∅))
  end.

(** [v == s] for a string literal [s]. *)
Definition eq_str (v : pyval) (s : string) : bool :=
  match v with
  | PyStr s' => String.eqb s' s
  | _ => false
  end.

Definition is_mapping (v : pyval) : bool :=
  match v with
  | PyDict _ => true
  | _ => false
  end.

(** ** Exceptions

    The package defines two exception classes, [MailSenderException] and
    its subclass [MailSenderUnsupportedException]; both are raised with an
    optional underlying exception and a message.  Everything else that can
    escape is an exception of Python or of a library. *)

Inductive builtin_exn : Type :=
| ValueError
| AttributeError
| TypeError
| OSError                (* IOError is an alias of OSError *)
| YAMLError              (* yaml.YAMLError: scanner and parser errors *)
| ModuleNotFoundError
| UnicodeDecodeError.    (* a subclass of ValueError *)

Inductive exn : Type :=
| Builtin (e : builtin_exn)
| MailSenderException (cause : option builtin_exn) (msg : string)
| MailSenderUnsupportedException (cause : option builtin_exn) (msg : string).

(** [isinstance(e, MailSenderException)]: the subclass counts. *)
Definition is_MailSenderException (e : exn) : bool :=
  match e with
  | Builtin _ => false
  | MailSenderException _ _ => true
  | MailSenderUnsupportedException _ _ => true
  end.

(** [isinstance(e, MailSenderUnsupportedException)]. *)
Definition is_MailSenderUnsupportedException (e : exn) : bool :=
  match e with
  | MailSenderUnsupportedException _ _ => true
  | _ => false
  end.

Inductive result (A : Type) : Type :=
| Ok (a : A)
| Raise (e : exn).
Arguments Ok {A} a.
Arguments Raise {A} e.

Definition is_Ok {A} (r : result A) : bool :=
  match r with
  | Ok _ => true
  | Raise _ => false
  end.

(** ** Strings: [str.split], [in], [os.path.split], [os.path.join] *)

Definition ascii_eqb (a b : ascii) : bool := Ascii.eqb a b.

(** [s.split(sep, maxsplit)] for a one-character separator. *)
Fixpoint str_split (sep : ascii) (maxsplit : nat) (s : string) : list string :=
  match s with
  | "" => [""]
  | String c s' =>
      match maxsplit with
      | O => [s]
      | S n =>
          if ascii_eqb c sep then "" :: str_split sep n s'
          else match str_split sep maxsplit s' with
               | h :: t => String c h :: t
               | [] => [String c ""]
               end
      end
  end.

(** [c in s] for a one-character string [c]. *)
Fixpoint str_contains (c : ascii) (s : string) : bool :=
  match s with
  | "" => false
  | String c' s' => ascii_eqb c' c || str_contains c s'
  end.

Definition slash : ascii := "/"%char.
Definition at_sign : ascii := "@"%char.
Definition colon : ascii := ":"%char.

(** [p[:p.rfind('/') + 1]] *)
Fixpoint upto_last_slash (p : string) : string :=
  match p with
  | "" => ""
  | String c p' =>
      if str_contains slash p' then String c (upto_last_slash p')
      else if ascii_eqb c slash then "/" else ""
  end.

(** [s.rstrip('/')] *)
Fixpoint rstrip_slash (s : string) : string :=
  match s with
  | "" => ""
  | String c s' =>
      let r := rstrip_slash s' in
      if ascii_eqb c slash && String.eqb r "" then "" else String c r
  end.

(** [posixpath.split(p)[0]]: the head keeps its slashes only when it
    consists of slashes alone. *)
Definition path_split_head (p : string) : string :=
  let head := upto_last_slash p in
  if String.eqb (rstrip_slash head) "" then head else rstrip_slash head.

(** [posixpath.split(p)[1]]: what follows the last slash. *)
Fixpoint after_last_slash (p : string) : string :=
  match p with
  | "" => ""
  | String c p' =>
      if str_contains slash p' then after_last_slash p'
      else if ascii_eqb c slash then p' else String c p'
  end.

(** [s.endswith('/')] *)
Fixpoint ends_with_slash (s : string) : bool :=
  match s with
  | "" => false
  | String c "" => ascii_eqb c slash
  | String _ s' => ends_with_slash s'
  end.

Definition starts_with_slash (s : string) : bool :=
  match s with
  | String c _ => ascii_eqb c slash
  | "" => false
  end.

(** [posixpath.join(a, b)] *)
Definition path_join (a b : string) : string :=
  if starts_with_slash b then b
  else if String.eqb a "" || ends_with_slash a then a ++ b
  else a ++ "/" ++ b.

(** ** Module constants *)

Definition CONFIG_FILE_NAME : string := "mailsender_domains.yml".
Definition CREDS_FILE_NAME : string := "mailsender_creds.yml".
Definition CONFIG_APPLICATION_NAME : string := "MailSender".

Definition mode_0600 : Z := 6 * 64.      (* 0o600 *)
Definition mode_0700 : Z := 7 * 64.      (* 0o700 *)

(** [DEFAULT_CREDS_FILE], given what [platformdirs.user_config_dir]
    answers for the application name. *)
Definition DEFAULT_CREDS_FILE (user_config_dir : string) : string :=
  path_join user_config_dir CREDS_FILE_NAME.

(** ** The world outside the interpreter *)

(** What a file holds, as [yaml.load] sees it through a stream opened in
    text mode: a document denoting a value (the empty file denotes
    [None]), text the parser rejects, or bytes that are not text in the
    encoding of [open], on which reading the stream raises
    [UnicodeDecodeError] before the parser sees anything.
    [yaml.safe_dump v] writes a document denoting [v]. *)
Inductive content : Type :=
| Yaml (doc : pyval)
| Junk
| NotText.

Definition safe_dump (v : pyval) : content := Yaml v.

Definition yaml_load (c : content) : result pyval :=
  match c with
  | Yaml v => Ok v
  | Junk => Raise (Builtin YAMLError)
  | NotText => Raise (Builtin UnicodeDecodeError)
  end.

Record file : Type := File { f_data : content; f_mode : Z }.

(** What a module attribute is when the factory calls it. *)
Inductive pyattr : Type :=
| MailSenderSubclass (service_name : string)
    (* a class derived from MailSender whose constructor delegates to
       MailSender.__init__ and which inherits open() *)
| IncompleteSubclass (name : string)
    (* a class derived from MailSender in the same way that overrides
       neither send_message() nor get_service_name(); MailSender declares
       no abstract methods, so the class can be instantiated *)
| OtherClass (name : string)
    (* a class unrelated to MailSender, constructible with these arguments,
       that has neither of the two methods *)
| NotCallable (v : pyval).
    (* a plain value: calling it raises TypeError *)

Record world : Type := World {
  files : gmap string file;
  dirs : gset string;
  environ : gmap string string;
  user_config_dir : string;
  modules : gmap string (gmap string pyattr)
}.

(** Which calls into the operating system go wrong in a run.  A failing
    [os.write] leaves some content behind in the file it was writing.  An
    [os.write] may also come back normally having written only the first
    bytes of its buffer (a full disk, a file-size limit, a signal): it
    then returns a count below the length asked for, and the file holds
    [os_write_short].  A failing [os.makedirs] has created the first
    [makedirs_progress] of the missing ancestor directories by then. *)
Record faults : Type := MkFaults {
  read_fails : bool;
  os_open_fails : bool;
  os_write_fails : option content;
  os_write_short : option content;
  os_replace_fails : bool;
  makedirs_fails : bool;
  makedirs_progress : nat
}.

(** The runs in which every write is complete and a failing [os.makedirs]
    fails at its first directory. *)
Definition Faults (read_fails os_open_fails : bool) (os_write_fails : option content)
    (os_replace_fails makedirs_fails : bool) : faults :=
  {| read_fails := read_fails; os_open_fails := os_open_fails;
     os_write_fails := os_write_fails; os_write_short := None;
     os_replace_fails := os_replace_fails; makedirs_fails := makedirs_fails;
     makedirs_progress := 0 |}.

Definition no_faults : faults :=
  {| read_fails := false; os_open_fails := false; os_write_fails := None;
     os_write_short := None; os_replace_fails := false;
     makedirs_fails := false; makedirs_progress := 0 |}.

(** ** Calls and programs *)

Inductive call : Type → Type :=
| Acquire (lock : string) : call unit            (* FileLock.__enter__ *)
| Release (lock : string) : call unit            (* FileLock.__exit__ *)
| path_exists (p : string) : call bool
| open_read (p : string) : call (result content) (* open(p, 'r') and read *)
| os_open (p : string) (mode : Z) : call (result string)
    (* os.open(p, O_CREAT | O_TRUNC | O_WRONLY, mode); the descriptor is
       identified with the path it was opened on *)
| os_write (fd : string) (data : content) : call (result unit)
| os_close (fd : string) : call unit
| os_replace (src dst : string) : call (result unit)
| os_makedirs (d : string) (mode : Z) : call (result unit)
| environ_get (name : string) : call (option string)
| get_user_config_dir : call string
| import_module (name : string) : call (result (gmap string pyattr)).

Inductive prog (A : Type) : Type :=
| Ret (a : A)
| Vis {X : Type} (c : call X) (k : X → prog A).
Arguments Ret {A} a.
Arguments Vis {A X} c k.

Fixpoint bind {A B} (m : prog A) (f : A → prog B) : prog B :=
  match m with
  | Ret a => f a
  | Vis c k => Vis c (λ x, bind (k x) f)
  end.

Definition do {X} (c : call X) : prog X := Vis c Ret.

(** Python statements: a program that returns normally or raises. *)
Definition py (A : Type) : Type := prog (result A).

Definition ret {A} (a : A) : py A := Ret (Ok a).
Definition raise {A} (e : exn) : py A := Ret (Raise e).

Definition seq {A B} (m : py A) (f : A → py B) : py B :=
  bind m (λ r, match r with
               | Ok a => f a
               | Raise e => Ret (Raise e)
               end).

(** [try: m  except <classes> as e: h e] *)
Definition try_except {A} (m : py A) (catches : exn → bool) (h : exn → py A) : py A :=
  bind m (λ r, match r with
               | Ok a => Ret (Ok a)
               | Raise e => if catches e then h e else Ret (Raise e)
               end).

(** [try: m  finally: f] where [f] does not raise. *)
Definition try_finally {A} (m : py A) (f : prog unit) : py A :=
  bind m (λ r, bind f (λ _, Ret r)).

(** [with FileLock(lock): body] *)
Definition with_lock {A} (lock : string) (body : py A) : py A :=
  bind (do (Acquire lock)) (λ _, try_finally body (do (Release lock))).

Declare Scope py_scope.
Delimit Scope py_scope with py.
Notation "x <- m ;; k" := (seq m (λ x, k))
  (at level 100, m at next level, right associativity) : py_scope.
Notation "m ;; k" := (seq m (λ _, k))
  (at level 100, right associativity) : py_scope.
Notation "x <~ c ;; k" := (bind (do c) (λ x, k))
  (at level 100, c at next level, right associativity) : py_scope.

(** [except IOError] *)
Definition is_IOError (e : exn) : bool :=
  match e with
  | Builtin OSError => true
  | _ => false
  end.

(** [except Exception] *)
Definition is_Exception (e : exn) : bool := true.

(** [except (ModuleNotFoundError, AttributeError)] *)
Definition is_ModuleNotFound_or_Attribute (e : exn) : bool :=
  match e with
  | Builtin ModuleNotFoundError => true
  | Builtin AttributeError => true
  | _ => false
  end.

(** The exception object as it is passed on as the first argument of a
    wrapping exception. *)
Definition as_cause (e : exn) : option builtin_exn :=
  match e with
  | Builtin b => Some b
  | MailSenderException c _ => c
  | MailSenderUnsupportedException c _ => c
  end.

(** ** Dict operations on values *)

(** [v.get(key)] *)
Definition py_get (v : pyval) (key : string) : result pyval :=
  match v with
  | PyDict d => Ok (default PyNone (d !! key))
  | _ => Raise (Builtin AttributeError)
  end.

(** [v.get(key, dflt)] *)
Definition py_get_default (v : pyval) (key : string) (dflt : pyval) : result pyval :=
  match v with
  | PyDict d => Ok (default dflt (d !! key))
  | _ => Raise (Builtin AttributeError)
  end.

(** [v[key] = x] for a string key *)
Definition py_setitem (v : pyval) (key : string) (x : pyval) : result pyval :=
  match v with
  | PyDict d => Ok (PyDict (<[key := x]> d))
  | _ => Raise (Builtin TypeError)
  end.

(** [c in v] for a one-character string [c] *)
Definition py_contains (c : ascii) (v : pyval) : result bool :=
  match v with
  | PyStr s => Ok (str_contains c s)
  | PyList l => Ok (existsb (λ x, eq_str x (String c "")) l)
  | PyDict d => Ok (bool_decide (is_Some (d !! String c "")))
  | _ => Raise (Builtin TypeError)
  end.

(** [v.split(sep, maxsplit)] *)
Definition py_split (sep : ascii) (maxsplit : nat) (v : pyval) : result (list string) :=
  match v with
  | PyStr s => Ok (str_split sep maxsplit s)
  | _ => Raise (Builtin AttributeError)
  end.

Definition lift {A} (r : result A) : py A := Ret r.

(** ** What the calls do

    One process running alone: the lock is always free, so acquiring and
    releasing it never block.  [FileLock] opens its lock file with
    [O_CREAT] when it acquires, so the first acquisition of a lock creates
    an empty lock file, which is never removed.  Lock files are kept apart
    from [files], which holds what [open], [os.open] and [os.replace] work
    on: the locks a run acquires, and so the lock files it creates if they
    are missing, are given by [acquired] below.  The interleaved semantics
    further down gives the two lock calls their meaning between
    processes. *)

Definition set_files (f : gmap string file → gmap string file) (w : world) : world :=
  {| files := f (files w); dirs := dirs w; environ := environ w;
     user_config_dir := user_config_dir w; modules := modules w |}.

Definition set_dirs (f : gset string → gset string) (w : world) : world :=
  {| files := files w; dirs := f (dirs w); environ := environ w;
     user_config_dir := user_config_dir w; modules := modules w |}.

Definition set_data (c : content) (f : file) : file :=
  {| f_data := c; f_mode := f_mode f |}.

Definition exists_in (w : world) (p : string) : bool :=
  bool_decide (is_Some (files w !! p)) || bool_decide (p ∈ dirs w).

(** The [head, tail] that [os.makedirs] works with: [path.split name],
    split once more when the name ends in a slash. *)
Definition makedirs_split (name : string) : string * string :=
  let head := path_split_head name in
  let tail := after_last_slash name in
  if String.eqb tail "" then (path_split_head head, after_last_slash head)
  else (head, tail).

(** [os.makedirs] walks up from the name for as long as
    [head and tail and not path.exists(head)] and creates what is missing
    on the way back, outermost first.  [walk_up n w name] gives the path
    the walk stops at and the missing ancestors in the order they are
    created; a head is shorter than its name, so [String.length name]
    steps are enough. *)
Fixpoint walk_up (fuel : nat) (w : world) (name : string) : string * list string :=
  match fuel with
  | O => (name, [])
  | S n =>
      let '(head, tail) := makedirs_split name in
      if String.eqb head "" || String.eqb tail "" || exists_in w head
      then (head, [])
      else let '(stop, made) := walk_up n w head in (stop, (made ++ [head])%list)
  end.

Definition missing_ancestors (w : world) (name : string) : list string :=
  (walk_up (String.length name) w name).2.

(** The walk stopped at a regular file: a directory cannot be made below
    it, [mkdir] raises [NotADirectoryError]. *)
Definition below_a_file (w : world) (name : string) : bool :=
  let stop := (walk_up (String.length name) w name).1 in
  bool_decide (is_Some (files w !! stop)) && negb (bool_decide (stop ∈ dirs w)).

(** [name.startswith('.')] *)
Definition starts_with_dot (name : string) : bool :=
  match name with
  | String c _ => ascii_eqb c "."%char
  | "" => false
  end.

(** [importlib.import_module name] for a name that names no importable
    module: the empty name is refused with [ValueError], a relative name
    (there is no package argument) with [TypeError], any other name is
    not found. *)
Definition import_missing (name : string) : builtin_exn :=
  if String.eqb name "" then ValueError
  else if starts_with_dot name then TypeError
  else ModuleNotFoundError.

Definition handle (O : faults) {X} (c : call X) (w : world) : X * world :=
  match c in call X return X * world with
  | Acquire _ => (tt, w)      (* its lock file is accounted for by [acquired] *)
  | Release _ => (tt, w)
  | path_exists p => (exists_in w p, w)
  | open_read p =>
      match files w !! p with
      | Some f => if read_fails O then (Raise (Builtin OSError), w)
                  else (Ok (f_data f), w)
      | None => (Raise (Builtin OSError), w)
      end
  | os_open p mode =>
      if os_open_fails O then (Raise (Builtin OSError), w)
      else
        let m := match files w !! p with
                 | Some f => f_mode f      (* O_TRUNC on an existing file *)
                 | None => mode            (* O_CREAT *)
                 end in
        (Ok p, set_files (insert p (File (Yaml PyNone) m)) w)
  | os_write fd data =>
      match os_write_fails O with
      | Some torn => (Raise (Builtin OSError), set_files (alter (set_data torn) fd) w)
      | None =>
          (* the count [os.write] returns is left out: the code drops it *)
          match os_write_short O with
          | Some part => (Ok tt, set_files (alter (set_data part) fd) w)
          | None => (Ok tt, set_files (alter (set_data data) fd) w)
          end
      end
  | os_close _ => (tt, w)
  | os_replace src dst =>
      match files w !! src with
      | Some f => if os_replace_fails O then (Raise (Builtin OSError), w)
                  else (Ok tt, set_files (λ fs, <[dst := f]> (delete src fs)) w)
      | None => (Raise (Builtin OSError), w)
      end
  | os_makedirs d _ =>
      (* the ancestors are made with the default mode, only [d] with the
         mode asked for; directory modes are not tracked *)
      if makedirs_fails O
      then (Raise (Builtin OSError),
            set_dirs (union (list_to_set
                               (take (makedirs_progress O) (missing_ancestors w d)))) w)
      else if bool_decide (d ∈ dirs w) then (Ok tt, w)       (* exist_ok=True *)
      else if String.eqb d "" || bool_decide (is_Some (files w !! d))
      then (Raise (Builtin OSError), w)
      else if below_a_file w d then (Raise (Builtin OSError), w)
      else (Ok tt, set_dirs (union ({[ d ]} ∪ list_to_set (missing_ancestors w d))) w)
  | environ_get name => (environ w !! name, w)
  | get_user_config_dir => (user_config_dir w, w)
  | import_module name =>
      (* [modules] lists the importable modules under their absolute
         names *)
      (match modules w !! name with
       | Some m => Ok m
       | None => Raise (Builtin (import_missing name))
       end, w)
  end.

Fixpoint run {A} (O : faults) (p : prog A) (w : world) : A * world :=
  match p with
  | Ret a => (a, w)
  | Vis c k => let '(x, w') := handle O c w in run O (k x) w'
  end.

(** The lock a call acquires. *)
Definition lock_acquired {X} (c : call X) : list string :=
  match c with
  | Acquire l => [l]
  | _ => []
  end.

(** The locks a run acquires, in order: each acquisition opens the lock
    file of that name and creates it when it is not there yet. *)
Fixpoint acquired {A} (O : faults) (p : prog A) (w : world) : list string :=
  match p with
  | Ret _ => []
  | Vis c k => let '(x, w') := handle O c w in lock_acquired c ++ acquired O (k x) w'
  end.

(** ** class MailSender *)

Module MailSender.

Record t : Type := Self {
  kwargs : gmap string pyval;
  domain_spec : pyval;
  user_cred_file : string;
  user_cred_lock : string;      (* cred_locker = FileLock(user_cred_lock) *)
  user_credentials : pyval;
  sender : string
}.

Definition set_user_credentials (r : pyval) (self : t) : t :=
  {| kwargs := kwargs self; domain_spec := domain_spec self;
     user_cred_file := user_cred_file self;
     user_cred_lock := user_cred_lock self;
     user_credentials := r; sender := sender self |}.

Definition _read_creds_file (self : t) : py pyval :=
  with_lock (user_cred_lock self)
    (present <~ path_exists (user_cred_file self) ;;
     if present : bool then
       try_except
         (f <- do (open_read (user_cred_file self)) ;;
          creds <- lift (yaml_load f) ;;
          ret creds)
         is_IOError
         (λ e, raise (MailSenderException (as_cause e)
                        ("Error opening " ++ user_cred_file self)))
     else ret (PyDict ∅))%py.

Definition _update_creds (self : t) : py unit :=
  with_lock (user_cred_lock self)
    (current_creds <- _read_creds_file self ;;
     current_creds <- lift (py_setitem current_creds (sender self)
                              (user_credentials self)) ;;
     let temp_file := user_cred_file self ++ ".temp" in
     try_except
       (fd <- do (os_open temp_file mode_0600) ;;
        try_finally
          (try_except
             (do (os_write fd (safe_dump current_creds)))
             is_Exception
             (λ e, raise (MailSenderException (as_cause e)
                            ("Problem writing new credentials " ++ temp_file))))
          (do (os_close fd)) ;;
        do (os_replace temp_file (user_cred_file self)))
       is_IOError
       (λ e, raise (MailSenderException (as_cause e)
                      ("Can't write " ++ user_cred_file self))))%py.

Definition __init__ (sender : string) (domain_spec : pyval)
    (kwargs : gmap string pyval) : py t :=
  (env <~ environ_get "MAILSENDER_CREDS" ;;
   conf_dir <~ get_user_config_dir ;;
   let user_cred_file :=
     default (PyStr (default (DEFAULT_CREDS_FILE conf_dir) env))
             (kwargs !! "creds_file") in
   match user_cred_file with
   | PyStr user_cred_file =>
       let creds_dir := path_split_head user_cred_file in
       do (os_makedirs creds_dir mode_0700) ;;
       let self := {| kwargs := kwargs; domain_spec := domain_spec;
                      user_cred_file := user_cred_file;
                      user_cred_lock := user_cred_file ++ ".lock";
                      user_credentials := PyNone; sender := sender |} in
       creds <- _read_creds_file self ;;
       user_credentials <- lift (py_get creds sender) ;;
       ret (set_user_credentials
              (if truthy user_credentials then user_credentials else PyDict ∅)
              self)
   | _ => raise (Builtin TypeError)      (* path.split of a non-string *)
   end)%py.

Definition open (self : t) : py t := ret self.

End MailSender.

(** ** The factory *)

(** Modelled from the spec: [smtp_sender.SMTPSender] is not among the
    sources.  Section 4.2 has the factory "instantiate the built-in SMTP
    Sender implementation (external collaborator; this core only invokes
    its constructor contract)", so the built-in sender is represented by
    the arguments of that constructor call. *)
Inductive instance : Type :=
| SMTPSender (sender : string) (domain_spec : pyval) (kwargs : gmap string pyval)
| SubclassInstance (service_name : string) (self : MailSender.t)
| IncompleteInstance (name : string) (self : MailSender.t)
| OtherInstance (name : string).

(** [isinstance(inst, MailSender)] *)
Definition isinstance_MailSender (inst : instance) : bool :=
  match inst with
  | SMTPSender _ _ _ => true
  | SubclassInstance _ _ => true
  | IncompleteInstance _ _ => true
  | OtherInstance _ => false
  end.

(** [getattr(mod, name)] *)
Definition getattr (mod_ : gmap string pyattr) (name : string) : result pyattr :=
  match mod_ !! name with
  | Some a => Ok a
  | None => Raise (Builtin AttributeError)
  end.

(** [cls(sender, domain_spec=domain_spec, **kwargs)] *)
Definition construct (cls : pyattr) (sender : string) (domain_spec : pyval)
    (kwargs : gmap string pyval) : py instance :=
  match cls with
  | MailSenderSubclass name =>
      (self <- MailSender.__init__ sender domain_spec kwargs ;;
       ret (SubclassInstance name self))%py
  | IncompleteSubclass name =>
      (self <- MailSender.__init__ sender domain_spec kwargs ;;
       ret (IncompleteInstance name self))%py
  | OtherClass name => ret (OtherInstance name)
  | NotCallable _ => raise (Builtin TypeError)
  end.

(** [inst.open()] *)
Definition instance_open (inst : instance) : py instance :=
  match inst with
  | SubclassInstance name self =>
      (self <- MailSender.open self ;; ret (SubclassInstance name self))%py
  | IncompleteInstance name self =>
      (self <- MailSender.open self ;; ret (IncompleteInstance name self))%py
  | _ => ret inst
  end.

(** [mail_sender(sender, base_config, overrides, **kwargs)].  The layered
    loader [combine_settings.load_config] is a library; [domains_conf] is
    the merged table it returns for the given base and overrides. *)
Definition mail_sender (sender : string) (domains_conf : gmap string pyval)
    (kwargs : gmap string pyval) : py instance :=
  (if negb (truthy (PyStr sender))
   then raise (MailSenderException None "sender is required")
   else
     match str_split at_sign 2 sender with
     | [addr; domain] =>
         let domain_spec := default PyNone (domains_conf !! domain) in
         if negb (truthy domain_spec)
         then raise (MailSenderException None
                       ("Domain " ++ domain ++ " isn't recognized"))
         else
           protocol <- lift (py_get_default domain_spec "protocol" (PyStr "smtp")) ;;
           if eq_str protocol "smtp"
           then ret (SMTPSender sender domain_spec kwargs)
           else
             has_colon <- lift (py_contains colon protocol) ;;
             if negb has_colon
             then raise (MailSenderException None
                           ("No implementation specified for domain " ++ domain))
             else
               parts <- lift (py_split colon 1 protocol) ;;
               match parts with
               | [module_; class_] =>
                   try_except
                     (mod_ <- do (import_module module_) ;;
                      cls <- lift (getattr mod_ class_) ;;
                      inst <- construct cls sender domain_spec kwargs ;;
                      if negb (isinstance_MailSender inst)
                      then raise (MailSenderException None
                                    (module_ ++ ":" ++ class_ ++ " for " ++
                                     domain ++ " is not a MailSender"))
                      else instance_open inst)
                     is_ModuleNotFound_or_Attribute
                     (λ e, raise (MailSenderUnsupportedException (as_cause e)
                                    (module_ ++ ":" ++ class_ ++
                                     " for email domain " ++ domain ++ " unknown)")))
               | _ => raise (Builtin ValueError)
               end
     | _ => raise (Builtin ValueError)     (* tuple unpacking *)
     end)%py.

(** ** Processes sharing the credential file

    Each process runs one program; a step of the system is one call of one
    process.  [FileLock] is what couples them: acquiring blocks while
    another process holds the lock, the holder may re-enter (the lock
    counts), and the lock is free again when the count returns to zero.
    Every other call acts on the shared [world] as in [handle]. *)

Inductive proc : Type := P1 | P2.

#[global] Instance proc_eq_dec : EqDecision proc.
Proof. solve_decision. Defined.

Definition is_lock_call {X} (c : call X) : bool :=
  match c with
  | Acquire _ => true
  | Release _ => true
  | _ => false
  end.

(** One step of process [i]; [None] when it has returned or is blocked. *)
Definition pstep (O : faults) (i : proc) {A} (p : prog A)
    (L : gmap string (proc * nat)) (w : world)
    : option (prog A * gmap string (proc * nat) * world) :=
  match p with
  | Ret _ => None
  | Vis c k =>
      match c in call X return (X → prog A) → _ with
      | Acquire l => λ k,
          match L !! l with
          | None => Some (k tt, <[l := (i, 1)]> L, w)
          | Some (j, d) =>
              if decide (i = j) then Some (k tt, <[l := (i, S d)]> L, w)
              else None
          end
      | Release l => λ k,
          match L !! l with
          | Some (j, S (S d)) =>
              if decide (i = j) then Some (k tt, <[l := (i, S d)]> L, w)
              else Some (k tt, L, w)
          | Some (j, _) =>
              if decide (i = j) then Some (k tt, delete l L, w)
              else Some (k tt, L, w)
          | None => Some (k tt, L, w)
          end
      | c => λ k, let '(x, w') := handle O c w in Some (k x, L, w')
      end k
  end.

Record system (A B : Type) : Type := System {
  proc1 : prog A;
  proc2 : prog B;
  locks : gmap string (proc * nat);
  disk : world
}.
Arguments System {A B} proc1 proc2 locks disk.
Arguments proc1 {A B} s.
Arguments proc2 {A B} s.
Arguments locks {A B} s.
Arguments disk {A B} s.

Inductive step (O : faults) {A B} : system A B → system A B → Prop :=
| step_proc1 s p' L' w' :
    pstep O P1 (proc1 s) (locks s) (disk s) = Some (p', L', w') →
    step O s (System p' (proc2 s) L' w')
| step_proc2 s p' L' w' :
    pstep O P2 (proc2 s) (locks s) (disk s) = Some (p', L', w') →
    step O s (System (proc1 s) p' L' w').

(** Both processes have returned, with these values. *)
Definition finished {A B} (s : system A B) (a : A) (b : B) : Prop :=
  proc1 s = Ret a ∧ proc2 s = Ret b.

(** [inside l d d' p]: run with lock [l] held [d] times, [p] touches no
    other lock, never lets go of [l], and ends holding it [d'] times. *)
Inductive inside (l : string) {A} : nat → nat → prog A → Prop :=
| inside_Ret d a : inside l d d (Ret a)
| inside_Acquire d d' k :
    inside l (S d) d' (k tt) → inside l d d' (Vis (Acquire l) k)
| inside_Release d d' k :
    inside l (S d) d' (k tt) → inside l (S (S d)) d' (Vis (Release l) k)
| inside_call {X} (c : call X) d d' k :
    is_lock_call c = false → (∀ x, inside l d d' (k x)) →
    inside l d d' (Vis c k).

(** ** Outcomes in closed form

    What the two credential-file methods and the constructor come to when
    one process runs them alone; the lemmas [run_read_creds_file],
    [run_update_creds] and [run_init] below prove that [run] computes
    exactly these. *)

Definition read_result (O : faults) (w : world) (p : string) : result pyval :=
  if exists_in w p then
    match files w !! p with
    | Some f =>
        if read_fails O
        then Raise (MailSenderException (Some OSError) ("Error opening " ++ p))
        else yaml_load (f_data f)
    | None => Raise (MailSenderException (Some OSError) ("Error opening " ++ p))
    end
  else Ok (PyDict ∅).

(** The mode the temporary file ends up with: [O_CREAT] applies the mode
    argument only when it creates the file. *)
Definition temp_mode (w : world) (tmp : string) : Z :=
  match files w !! tmp with
  | Some f => f_mode f
  | None => mode_0600
  end.

Definition update_result (O : faults) (self : MailSender.t) (w : world)
    : result unit * world :=
  let p := MailSender.user_cred_file self in
  let tmp := p ++ ".temp" in
  match read_result O w p with
  | Raise e => (Raise e, w)
  | Ok v =>
      match py_setitem v (MailSender.sender self) (MailSender.user_credentials self) with
      | Raise e => (Raise e, w)
      | Ok new =>
          if os_open_fails O
          then (Raise (MailSenderException (Some OSError) ("Can't write " ++ p)), w)
          else
            match os_write_fails O with
            | Some torn =>
                (Raise (MailSenderException (Some OSError)
                          ("Problem writing new credentials " ++ tmp)),
                 set_files (insert tmp (File torn (temp_mode w tmp))) w)
            | None =>
                let written := match os_write_short O with
                               | Some part => part
                               | None => Yaml new
                               end in
                if os_replace_fails O
                then (Raise (MailSenderException (Some OSError) ("Can't write " ++ p)),
                      set_files (insert tmp (File written (temp_mode w tmp))) w)
                else (Ok tt,
                      set_files (λ fs, <[p := File written (temp_mode w tmp)]>
                                         (delete tmp fs)) w)
            end
      end
  end.

(** The value [__init__] takes for [user_cred_file], before it is used as
    a path. *)
Definition creds_file_setting (kwargs : gmap string pyval) (w : world) : pyval :=
  default (PyStr (default (DEFAULT_CREDS_FILE (user_config_dir w))
                          (environ w !! "MAILSENDER_CREDS")))
          (kwargs !! "creds_file").

Definition makedirs_result (O : faults) (w : world) (d : string)
    : result unit * world :=
  handle O (os_makedirs d mode_0700) w.

Definition init_result (O : faults) (s : string) (domain_spec : pyval)
    (kwargs : gmap string pyval) (w : world) : result MailSender.t * world :=
  match creds_file_setting kwargs w with
  | PyStr p =>
      let '(made, w1) := makedirs_result O w (path_split_head p) in
      match made with
      | Raise e => (Raise e, w1)
      | Ok _ =>
          match read_result O w1 p with
          | Raise e => (Raise e, w1)
          | Ok creds =>
              match py_get creds s with
              | Raise e => (Raise e, w1)
              | Ok c =>
                  (Ok {| MailSender.kwargs := kwargs;
                         MailSender.domain_spec := domain_spec;
                         MailSender.user_cred_file := p;
                         MailSender.user_cred_lock := p ++ ".lock";
                         MailSender.user_credentials :=
                           if truthy c then c else PyDict ∅;
                         MailSender.sender := s |}, w1)
              end
          end
      end
  | _ => (Raise (Builtin TypeError), w)
  end.

(** ** The specification's wording, for comparison *)

(** "rec merged over any prior value for that sender": the fields of [rec]
    win, the other fields of the prior record stay. *)
Definition merged_over (rec prior : pyval) : pyval :=
  match rec, prior with
  | PyDict r, PyDict p => PyDict (r ∪ p)
  | _, _ => rec
  end.

(** "explicit option → environment variable override → default path" *)
Definition first_available (option_ env : option string) (dflt : string) : string :=
  match option_ with
  | Some p => p
  | None => match env with
            | Some p => p
            | None => dflt
            end
  end.


(** Number of occurrences of a character. *)
Fixpoint str_count (c : ascii) (s : string) : nat :=
  match s with
  | "" => 0
  | String c' s' => (if ascii_eqb c' c then 1 else 0) + str_count c s'
  end.

(** ** Example data *)

Definition ex_dir : string := "/home/u/.config/MailSender".
Definition ex_creds_file : string := "/home/u/.config/MailSender/mailsender_creds.yml".

Definition ex_stored : gmap string pyval :=
  {[ "foo@base.com" := PyDict {[ "userid" := PyStr "foo" ]};
     "bar@base.com" := PyDict {[ "password" := PyStr "hunter2" ]} ]}.

Definition ex_prior : pyval := PyDict {[ "userid" := PyStr "foo" ]}.

Definition ex_record : pyval := PyDict {[ "password" := PyStr "s3cret" ]}.

Definition ex_world_with (c : content) : world :=
  {| files := {[ ex_creds_file := File c mode_0600 ]};
     dirs := {[ ex_dir ]};
     environ := ∅;
     user_config_dir := ex_dir;
     modules := ∅ |}.

Definition ex_world : world := ex_world_with (Yaml (PyDict ex_stored)).

Definition ex_empty_world : world :=
  {| files := ∅; dirs := {[ ex_dir ]}; environ := ∅;
     user_config_dir := ex_dir; modules := ∅ |}.

Definition ex_kwargs : gmap string pyval :=
  {[ "creds_file" := PyStr ex_creds_file ]}.

Definition ex_self : MailSender.t :=
  {| MailSender.kwargs := ex_kwargs;
     MailSender.domain_spec := PyDict {[ "server" := PyStr "smtp.base.com" ]};
     MailSender.user_cred_file := ex_creds_file;
     MailSender.user_cred_lock := ex_creds_file ++ ".lock";
     MailSender.user_credentials := PyDict {[ "userid" := PyStr "foo" ]};
     MailSender.sender := "foo@base.com" |}.

(** The tests' configuration: [base.com] names the test class
    [test_mail_sender:TestBase], a [MailSender] subclass whose service name
    is ["test_service"]; [bad.server] names a module that does not exist. *)
Definition ex_modules : gmap string (gmap string pyattr) :=
  {[ "test_mail_sender" :=
       {[ "TestBase" := MailSenderSubclass "test_service";
          "Test" := OtherClass "Test";
          "SENDER" := NotCallable (PyStr "foo@base.com") ]} ]}.

Definition ex_domains : gmap string pyval :=
  {[ "base.com" := PyDict {[ "protocol" := PyStr "test_mail_sender:TestBase" ]};
     "other.com" := PyDict {[ "protocol" := PyStr "test_mail_sender:Test" ]};
     "missing.com" := PyDict {[ "protocol" := PyStr "test_mail_sender:Nope" ]};
     "bad.server" := PyDict {[ "protocol" := PyStr "nope:Sender" ]} ]}.

Definition ex_test_world : world :=
  {| files := files ex_world; dirs := dirs ex_world; environ := ∅;
     user_config_dir := ex_dir; modules := ex_modules |}.



Definition ex_other : MailSender.t :=
  {| MailSender.kwargs := ex_kwargs;
     MailSender.domain_spec := PyDict {[ "server" := PyStr "smtp.base.com" ]};
     MailSender.user_cred_file := ex_creds_file;
     MailSender.user_cred_lock := ex_creds_file ++ ".lock";
     MailSender.user_credentials := PyDict {[ "password" := PyStr "swordfish" ]};
     MailSender.sender := "bar@base.com" |}.

(** ** Two lock-guarded blocks side by side

    [rest l q] is what is left of [with FileLock(l): body] once the body
    has come down to [q]: finish [q], then release.

    [serial] lists the states two processes running
    [with_lock l body1] and [with_lock l body2] from the world [w] can be
    in: nobody has started; one is inside its block (the other has not
    started, or has finished); both have finished, in one order or the
    other. *)

Definition rest {A} (l : string) (q : py A) : py A :=
  try_finally q (do (Release l)).

Section serial.
Context (O : faults) (l : string) {A B : Type}.
Context (body1 : py A) (body2 : py B) (w : world).

Inductive serial : system (result A) (result B) → Prop :=
| serial_start :
    serial (System (with_lock l body1) (with_lock l body2) ∅ w)
| serial_in1 q d w' :
    inside l (S d) 1 q → run O q w' = run O body1 w →
    serial (System (rest l q) (with_lock l body2) {[ l := (P1, S d) ]} w')
| serial_done1 :
    serial (System (Ret (run O body1 w).1) (with_lock l body2) ∅
                   (run O body1 w).2)
| serial_in2_after1 q d w' :
    inside l (S d) 1 q → run O q w' = run O body2 (run O body1 w).2 →
    serial (System (Ret (run O body1 w).1) (rest l q) {[ l := (P2, S d) ]} w')
| serial_done12 :
    serial (System (Ret (run O body1 w).1)
                   (Ret (run O body2 (run O body1 w).2).1) ∅
                   (run O body2 (run O body1 w).2).2)
| serial_in2 q d w' :
    inside l (S d) 1 q → run O q w' = run O body2 w →
    serial (System (with_lock l body1) (rest l q) {[ l := (P2, S d) ]} w')
| serial_done2 :
    serial (System (with_lock l body1) (Ret (run O body2 w).1) ∅
                   (run O body2 w).2)
| serial_in1_after2 q d w' :
    inside l (S d) 1 q → run O q w' = run O body1 (run O body2 w).2 →
    serial (System (rest l q) (Ret (run O body2 w).1) {[ l := (P1, S d) ]} w')
| serial_done21 :
    serial (System (Ret (run O body1 (run O body2 w).2).1)
                   (Ret (run O body2 w).1) ∅
                   (run O body1 (run O body2 w).2).2).

End serial.

(** ** The built-in domain table *)

Definition _OUTLOOK_SERVER : pyval :=
  PyDict {[ "server" := PyStr "smtp-mail.outlook.com"; "port" := PyInt 587 ]}.

Definition _BUILTIN_DOMAINS : gmap string pyval :=
  {[ "yahoo.com" := PyDict {[ "protocol" := PyStr "smtp";
                              "server" := PyStr "smtp.mail.yahoo.com";
                              "port" := PyInt 587 ]};
     "aol.com" := PyDict {[ "server" := PyStr "smtp.aol.com";
                            "port" := PyInt 465 ]};
     "gmail.com" := PyDict {[ "server" := PyStr "smtp.gmail.com" ]};
     "outlook.com" := _OUTLOOK_SERVER;
     "hotmail.com" := _OUTLOOK_SERVER;
     "live.com" := _OUTLOOK_SERVER;
     "comcast.net" := PyDict {[ "server" := PyStr "smtp.comcast.net";
                                "port" := PyInt 587 ]} ]}.

(** ** Vocabulary for the properties below *)

(** The path [p] holds the mapping [m]: a file with a document denoting
    it, or nothing at all (which reads as the empty mapping). *)
Definition holds_mapping (w : world) (p : string) (m : gmap string pyval) : Prop :=
  (exists_in w p = false ∧ m = ∅)
  ∨ ∃ f, files w !! p = Some f ∧ f_data f = Yaml (PyDict m).




(** An oracle under which writing the temporary file fails half-way. *)
Definition ex_write_fails : faults :=
  {| read_fails := false; os_open_fails := false; os_write_fails := Some Junk;
     os_write_short := None; os_replace_fails := false; makedirs_fails := false;
     makedirs_progress := 0 |}.

(** What is left of the document for [ex_stored] when the write stops
    after the first sender's entry ([safe_dump] writes the keys in
    order). *)
Definition ex_truncated : content :=
  Yaml (PyDict {[ "bar@base.com" := PyDict {[ "password" := PyStr "hunter2" ]} ]}).

(** An oracle under which writing the temporary file stops short. *)
Definition ex_short_write : faults :=
  {| read_fails := false; os_open_fails := false; os_write_fails := None;
     os_write_short := Some ex_truncated; os_replace_fails := false;
     makedirs_fails := false; makedirs_progress := 0 |}.

(** * Properties *)

(** ** Running programs *)

Section run_lemmas.
Context (O : faults).

Lemma run_Ret {A} (a : A) w : run O (Ret a) w = (a, w).
Proof. done. Qed.

Lemma run_bind {A B} (m : prog A) (f : A → prog B) w :
  run O (bind m f) w = run O (f (run O m w).1) (run O m w).2.
Proof.
  revert w. induction m as [a | X c k IH]; intros w; simpl; [done|].
  destruct (handle O c w) as [x w']. apply IH.
Qed.

Lemma run_do {X} (c : call X) w : run O (do c) w = handle O c w.
Proof. unfold do. simpl. by destruct (handle O c w). Qed.

Lemma run_seq {A B} (m : py A) (f : A → py B) w :
  run O (seq m f) w =
    match (run O m w).1 with
    | Ok a => run O (f a) (run O m w).2
    | Raise e => (Raise e, (run O m w).2)
    end.
Proof. unfold seq. rewrite run_bind. by destruct (run O m w).1. Qed.

Lemma run_try_except {A} (m : py A) catches h w :
  run O (try_except m catches h) w =
    match (run O m w).1 with
    | Ok a => (Ok a, (run O m w).2)
    | Raise e => if catches e then run O (h e) (run O m w).2
                 else (Raise e, (run O m w).2)
    end.
Proof.
  unfold try_except. rewrite run_bind.
  destruct (run O m w).1 as [a|e]; [done|]. by destruct (catches e).
Qed.

Lemma run_with_lock {A} l (body : py A) w :
  run O (with_lock l body) w = run O body w.
Proof.
  unfold with_lock, try_finally. rewrite run_bind, run_do. simpl.
  rewrite run_bind. simpl. by destruct (run O body w).
Qed.

End run_lemmas.

Lemma set_files_files f w : files (set_files f w) = f (files w).
Proof. done. Qed.

Lemma set_files_set_files f g w : set_files f (set_files g w) = set_files (f ∘ g) w.
Proof. done. Qed.

Lemma set_files_ext f g w : f (files w) = g (files w) → set_files f w = set_files g w.
Proof. unfold set_files. by intros ->. Qed.

Lemma append_ne (p s : string) : s ≠ "" → p ≠ p ++ s.
Proof.
  intros Hs. induction p as [|c p IH]; simpl.
  - by destruct s.
  - intros [= H]. by apply IH.
Qed.

Lemma temp_ne p : p ≠ p ++ ".temp".
Proof. by apply append_ne. Qed.

(** ** The methods in closed form *)

Lemma run_read_creds_file O self w :
  run O (MailSender._read_creds_file self) w
  = (read_result O w (MailSender.user_cred_file self), w).
Proof.
  unfold MailSender._read_creds_file, read_result.
  rewrite run_with_lock, run_bind, run_do. simpl.
  destruct (exists_in w (MailSender.user_cred_file self)); [|done].
  rewrite run_try_except, run_seq, run_do. simpl.
  destruct (files w !! MailSender.user_cred_file self) as [f|]; [|done].
  destruct (read_fails O); [done|]. simpl.
  rewrite run_seq. unfold lift, ret. simpl.
  by destruct (f_data f).
Qed.

Lemma run_update_creds O self w :
  run O (MailSender._update_creds self) w = update_result O self w.
Proof.
  unfold MailSender._update_creds, update_result.
  rewrite run_with_lock, run_seq, run_read_creds_file. cbn [fst snd].
  destruct (read_result O w (MailSender.user_cred_file self)) as [v|e]; [|done].
  rewrite run_seq. unfold lift. rewrite !run_Ret. cbn [fst snd].
  destruct (py_setitem v _ _) as [new|e]; [|done].
  cbv zeta. rewrite run_try_except, run_seq, run_do.
  cbn [handle]. destruct (os_open_fails O); [done|]. cbn [fst snd].
  fold (temp_mode w (MailSender.user_cred_file self +:+ ".temp")).
  rewrite run_seq. unfold try_finally.
  rewrite run_bind, run_try_except, run_do. cbn [handle].
  destruct (os_write_fails O) as [torn|]; cbn [fst snd is_Exception as_cause].
  - unfold raise. rewrite !run_Ret. cbn [fst snd].
    rewrite run_bind, run_do, run_Ret. cbn [handle fst snd is_IOError].
    rewrite set_files_set_files. f_equal. apply set_files_ext.
    unfold compose. by rewrite alter_insert_eq.
  - destruct (os_write_short O) as [part|];
    (rewrite run_bind, run_do, run_Ret; cbn [handle fst snd];
     rewrite run_do; cbn [handle]; rewrite !set_files_files;
     rewrite alter_insert_eq, lookup_insert_eq; cbn [set_data f_data f_mode];
     destruct (os_replace_fails O); cbn [fst snd is_IOError as_cause];
     [ unfold raise; rewrite run_Ret, set_files_set_files; f_equal;
       apply set_files_ext; unfold compose; by rewrite alter_insert_eq
     | rewrite !set_files_set_files; f_equal; apply set_files_ext;
       unfold compose; by rewrite alter_insert_eq, delete_insert_eq ]).
Qed.

Lemma run_init O s domain_spec kwargs w :
  run O (MailSender.__init__ s domain_spec kwargs) w
  = init_result O s domain_spec kwargs w.
Proof.
  unfold MailSender.__init__, init_result.
  rewrite run_bind, run_do. cbn [handle fst snd].
  rewrite run_bind, run_do. cbn [handle fst snd].
  fold (creds_file_setting kwargs w).
  destruct (creds_file_setting kwargs w) as [| | |p| |]; try done.
  cbv zeta. rewrite run_seq, run_do.
  change (handle O (os_makedirs (path_split_head p) mode_0700) w)
    with (makedirs_result O w (path_split_head p)).
  destruct (makedirs_result O w (path_split_head p)) as [[[]|e] w1];
    cbn [fst snd]; [|done].
  rewrite run_seq, run_read_creds_file. cbn [fst snd MailSender.user_cred_file].
  destruct (read_result O w1 p) as [creds|e]; [|done].
  rewrite run_seq. unfold lift. rewrite !run_Ret. cbn [fst snd].
  by destruct (py_get creds s) as [c|e].
Qed.

(** ** The locks a run acquires *)

Section acquired_lemmas.
Context (O : faults).

Lemma acquired_bind {A B} (m : prog A) (f : A → prog B) w :
  acquired O (bind m f) w
  = (acquired O m w ++ acquired O (f (run O m w).1) (run O m w).2)%list.
Proof.
  revert w. induction m as [a | X c k IH]; intros w; simpl; [done|].
  destruct (handle O c w) as [x w']. by rewrite IH, app_assoc.
Qed.

Lemma acquired_do {X} (c : call X) w : acquired O (do c) w = lock_acquired c.
Proof. unfold do. simpl. destruct (handle O c w). apply app_nil_r. Qed.

Lemma acquired_seq {A B} (m : py A) (f : A → py B) w :
  acquired O (seq m f) w
  = (acquired O m w ++ match (run O m w).1 with
                       | Ok a => acquired O (f a) (run O m w).2
                       | Raise e => []
                       end)%list.
Proof. unfold seq. rewrite acquired_bind. by destruct (run O m w).1. Qed.

Lemma acquired_try_except {A} (m : py A) catches h w :
  acquired O (try_except m catches h) w
  = (acquired O m w ++ match (run O m w).1 with
                       | Ok a => []
                       | Raise e => if catches e then acquired O (h e) (run O m w).2
                                    else []
                       end)%list.
Proof.
  unfold try_except. rewrite acquired_bind.
  destruct (run O m w).1 as [a|e]; [done|]. by destruct (catches e).
Qed.

Lemma acquired_with_lock {A} l (body : py A) w :
  acquired O (with_lock l body) w = l :: acquired O body w.
Proof.
  unfold with_lock, try_finally. rewrite acquired_bind, acquired_do, run_do.
  cbn [lock_acquired handle fst snd app]. f_equal.
  rewrite acquired_bind, acquired_bind, acquired_do. cbn [lock_acquired].
  simpl. by rewrite !app_nil_r.
Qed.

(** A read acquires the handle's lock, once. *)
Lemma acquired_read_creds_file self w :
  acquired O (MailSender._read_creds_file self) w = [MailSender.user_cred_lock self].
Proof.
  unfold MailSender._read_creds_file. rewrite acquired_with_lock. f_equal.
  rewrite acquired_bind, acquired_do, run_do. cbn [lock_acquired handle fst snd app].
  destruct (exists_in w (MailSender.user_cred_file self)); [|done].
  rewrite acquired_try_except, acquired_seq, acquired_do, run_seq, run_do.
  cbn [lock_acquired handle app].
  destruct (files w !! MailSender.user_cred_file self) as [f|]; [|done].
  destruct (read_fails O); [done|]. cbn [fst snd].
  rewrite acquired_seq, run_seq. unfold lift, ret. simpl.
  destruct (yaml_load (f_data f)) as [v|e]; [done|].
  simpl. by destruct (is_IOError e).
Qed.

(** The constructor acquires the lock [<creds>.lock], once, when it gets
    as far as reading the file, and no other lock. *)
Lemma acquired_init s domain_spec kwargs w :
  acquired O (MailSender.__init__ s domain_spec kwargs) w
  = match creds_file_setting kwargs w with
    | PyStr p =>
        match (makedirs_result O w (path_split_head p)).1 with
        | Ok _ => [p ++ ".lock"]
        | Raise _ => []
        end
    | _ => []
    end.
Proof.
  unfold MailSender.__init__.
  rewrite acquired_bind, acquired_do, run_do. cbn [lock_acquired handle fst snd app].
  rewrite acquired_bind, acquired_do, run_do. cbn [lock_acquired handle fst snd app].
  fold (creds_file_setting kwargs w).
  destruct (creds_file_setting kwargs w) as [| | |p| |]; try done.
  cbv zeta. rewrite acquired_seq, acquired_do, run_do.
  change (handle O (os_makedirs (path_split_head p) mode_0700) w)
    with (makedirs_result O w (path_split_head p)).
  cbn [lock_acquired app].
  destruct (makedirs_result O w (path_split_head p)) as [[[]|e] w1];
    cbn [fst snd]; [|done].
  rewrite acquired_seq, acquired_read_creds_file, run_read_creds_file.
  cbn [MailSender.user_cred_lock MailSender.user_cred_file app].
  destruct (read_result O w1 p) as [creds|e]; cbn [fst snd]; [|done].
  rewrite acquired_seq. unfold lift. simpl.
  by destruct (py_get creds s).
Qed.

End acquired_lemmas.

(** ** Strings and paths *)

Lemma str_contains_app c a b :
  str_contains c (a ++ b) = str_contains c a || str_contains c b.
Proof.
  induction a as [|x a IH]; simpl; [done|].
  rewrite IH. by rewrite orb_assoc.
Qed.

Lemma upto_last_slash_no_slash t :
  str_contains slash t = false → upto_last_slash t = "".
Proof.
  induction t as [|x t IH]; simpl; [done|].
  intros [Hx Ht]%orb_false_elim. by rewrite Ht, Hx.
Qed.

Lemma upto_last_slash_app p t :
  str_contains slash t = false → upto_last_slash (p ++ t) = upto_last_slash p.
Proof.
  intros Ht. induction p as [|x p IH]; simpl.
  - by apply upto_last_slash_no_slash.
  - rewrite str_contains_app, Ht, orb_false_r, IH. done.
Qed.

(** The temporary file lives in the directory of the credential file. *)
Lemma temp_same_directory p :
  path_split_head (p ++ ".temp") = path_split_head p.
Proof. unfold path_split_head. by rewrite upto_last_slash_app. Qed.

(** [path.split] cuts a path in two. *)
Lemma split_lengths p :
  (String.length (upto_last_slash p) + String.length (after_last_slash p))%nat
  = String.length p.
Proof.
  induction p as [|c p IH]; simpl; [done|].
  destruct (str_contains slash p); simpl; [lia|].
  destruct (ascii_eqb c slash); simpl; lia.
Qed.

Lemma rstrip_slash_length s :
  (String.length (rstrip_slash s) ≤ String.length s)%nat.
Proof.
  induction s as [|c s IH]; simpl; [done|].
  destruct (ascii_eqb c slash && String.eqb (rstrip_slash s) ""); simpl; lia.
Qed.

Lemma path_split_head_length p :
  (String.length (path_split_head p) + String.length (after_last_slash p)
   ≤ String.length p)%nat.
Proof.
  pose proof (split_lengths p). pose proof (rstrip_slash_length (upto_last_slash p)).
  unfold path_split_head. case_match; lia.
Qed.

(** A head that [os.makedirs] walks up to is shorter than the name it
    came from. *)
Lemma makedirs_split_shorter name :
  (makedirs_split name).2 ≠ "" →
  (String.length (makedirs_split name).1 < String.length name)%nat.
Proof.
  unfold makedirs_split.
  pose proof (path_split_head_length name).
  pose proof (path_split_head_length (path_split_head name)).
  destruct (String.eqb (after_last_slash name) "") eqn:Htail; cbn [fst snd].
  - destruct (after_last_slash (path_split_head name)); [done|]. simpl in *. lia.
  - apply String.eqb_neq in Htail.
    destruct (after_last_slash name); [done|]. simpl in *. lia.
Qed.

(** More steps than the length of the name change nothing in the walk. *)
Lemma walk_up_enough_fuel w n m name :
  (String.length name ≤ n)%nat → (String.length name ≤ m)%nat →
  walk_up n w name = walk_up m w name.
Proof.
  revert m name. induction n as [|n IH]; intros [|m] name Hn Hm; [done|..].
  - destruct name; [done|]. simpl in Hn. lia.
  - destruct name; [done|]. simpl in Hm. lia.
  - cbn [walk_up]. pose proof (makedirs_split_shorter name) as Hlt.
    destruct (makedirs_split name) as [head tail]. cbn [fst snd] in Hlt.
    destruct (String.eqb head "") eqn:Hhead; [done|].
    destruct (String.eqb tail "") eqn:Htail; [done|].
    apply String.eqb_neq in Htail. specialize (Hlt Htail).
    cbn [orb]. destruct (exists_in w head); [done|].
    by rewrite (IH m head) by lia.
Qed.

(** ** Credential store: reading *)

Section store.
Import MailSender.

Lemma read_leaves_world O self w :
  (run O (_read_creds_file self) w).2 = w.
Proof. by rewrite run_read_creds_file. Qed.

Lemma read_missing_file O self w :
  exists_in w (user_cred_file self) = false →
  (run O (_read_creds_file self) w).1 = Ok (PyDict ∅).
Proof.
  intros H. rewrite run_read_creds_file. unfold read_result. by rewrite H.
Qed.

Lemma exists_in_file w p f : files w !! p = Some f → exists_in w p = true.
Proof.
  intros H. unfold exists_in. rewrite bool_decide_eq_true_2; [done|]. by exists f.
Qed.

Lemma read_existing_file O self w f :
  files w !! user_cred_file self = Some f → read_fails O = false →
  (run O (_read_creds_file self) w).1 = yaml_load (f_data f).
Proof.
  intros Hf HO. rewrite run_read_creds_file. unfold read_result.
  by rewrite (exists_in_file _ _ _ Hf), Hf, HO.
Qed.

(** A parse error leaves as the parser's own exception: only [IOError] is
    wrapped. *)
Lemma read_unparsable_file O self w f :
  files w !! user_cred_file self = Some f → f_data f = Junk →
  read_fails O = false →
  (run O (_read_creds_file self) w).1 = Raise (Builtin YAMLError).
Proof.
  intros Hf Hj HO. rewrite (read_existing_file _ _ _ _ Hf HO). by rewrite Hj.
Qed.

Lemma read_io_error O self w f :
  files w !! user_cred_file self = Some f → read_fails O = true →
  (run O (_read_creds_file self) w).1
  = Raise (MailSenderException (Some OSError)
             ("Error opening " ++ user_cred_file self)).
Proof.
  intros Hf HO. rewrite run_read_creds_file. unfold read_result.
  by rewrite (exists_in_file _ _ _ Hf), Hf, HO.
Qed.

(** Whatever the file holds, a read never yields the empty mapping unless
    the file is absent or holds the empty mapping. *)
Lemma read_empty_mapping_inv O self w :
  (run O (_read_creds_file self) w).1 = Ok (PyDict ∅) →
  exists_in w (user_cred_file self) = false
  ∨ ∃ f, files w !! user_cred_file self = Some f ∧ f_data f = Yaml (PyDict ∅).
Proof.
  rewrite run_read_creds_file. unfold read_result. cbn [fst].
  destruct (exists_in w (user_cred_file self)); [|by left].
  destruct (files w !! user_cred_file self) as [f|]; [|done].
  destruct (read_fails O); [done|].
  destruct (f_data f) as [v| |] eqn:Hd; simpl; [|done|done].
  intros [= ->]. right. by exists f.
Qed.

End store.

(** ** Credential store: updating *)

Section update.
Import MailSender.

Lemma read_result_set_user_credentials O r self w :
  run O (_read_creds_file (set_user_credentials r self)) w
  = run O (_read_creds_file self) w.
Proof. by rewrite !run_read_creds_file. Qed.

Lemma creds_file_setting_option kwargs w v :
  kwargs !! "creds_file" = Some v → creds_file_setting kwargs w = v.
Proof. unfold creds_file_setting. by intros ->. Qed.

Lemma creds_file_setting_no_option kwargs w :
  kwargs !! "creds_file" = None →
  creds_file_setting kwargs w
  = PyStr (default (DEFAULT_CREDS_FILE (user_config_dir w))
                   (environ w !! "MAILSENDER_CREDS")).
Proof. unfold creds_file_setting. by intros ->. Qed.

Lemma makedirs_existing w d :
  d ∈ dirs w → makedirs_result no_faults w d = (Ok tt, w).
Proof.
  intros Hd. unfold makedirs_result. cbn [handle makedirs_fails no_faults].
  by rewrite bool_decide_eq_true_2.
Qed.

(** What a successful update leaves on disk. *)
Lemma update_ok O self w m :
  (run O (_read_creds_file self) w).1 = Ok (PyDict m) →
  os_open_fails O = false → os_write_fails O = None →
  os_write_short O = None → os_replace_fails O = false →
  run O (_update_creds self) w
  = (Ok tt,
     set_files
       (λ fs, <[user_cred_file self :=
                  File (Yaml (PyDict (<[sender self := user_credentials self]> m)))
                       (temp_mode w (user_cred_file self ++ ".temp"))]>
                (delete (user_cred_file self ++ ".temp") fs)) w).
Proof.
  rewrite run_read_creds_file, run_update_creds. unfold update_result.
  cbn [fst]. intros -> -> -> -> ->. done.
Qed.

(** C1 (as amended): with no call failing, an update of sender [s] to
    record [r] succeeds; reading afterwards, through the same handle or a
    freshly constructed one, gives exactly [r] for [s] (the record
    replaces what the file held for [s]; an empty record reads back as the
    empty mapping), and every other sender's record is the one the file
    held immediately before the update, whatever this handle had read
    earlier. *)
Theorem update_then_read self r w m :
  (run no_faults (_read_creds_file self) w).1 = Ok (PyDict m) →
  let s := sender self in
  let updated := set_user_credentials r self in
  let out := run no_faults (_update_creds updated) w in
  out.1 = Ok tt
  ∧ (∃ m', (run no_faults (_read_creds_file updated) out.2).1 = Ok (PyDict m')
           ∧ py_get (PyDict m') s = Ok r
           ∧ ∀ s', s' ≠ s → m' !! s' = m !! s')
  ∧ (∀ domain_spec kwargs,
       kwargs !! "creds_file" = Some (PyStr (user_cred_file self)) →
       path_split_head (user_cred_file self) ∈ dirs w →
       ∃ fresh,
         (run no_faults (__init__ s domain_spec kwargs) out.2).1 = Ok fresh
         ∧ user_cred_file fresh = user_cred_file self
         ∧ user_credentials fresh = if truthy r then r else PyDict ∅).
Proof.
  intros Hread s updated out.
  assert (Hout : out =
    (Ok tt,
     set_files
       (λ fs, <[user_cred_file self :=
                  File (Yaml (PyDict (<[s := r]> m)))
                       (temp_mode w (user_cred_file self ++ ".temp"))]>
                (delete (user_cred_file self ++ ".temp") fs)) w)).
  { subst out updated. erewrite update_ok; [done| |done..].
    by rewrite read_result_set_user_credentials. }
  assert (Hafter : read_result no_faults out.2 (user_cred_file self)
                   = Ok (PyDict (<[s := r]> m))).
  { rewrite Hout. cbn [snd]. unfold read_result.
    erewrite exists_in_file; [|by rewrite set_files_files, lookup_insert_eq].
    by rewrite set_files_files, lookup_insert_eq. }
  split; [by rewrite Hout|]. split.
  - exists (<[s := r]> m). split; [|split].
    + by rewrite run_read_creds_file.
    + simpl. by rewrite lookup_insert_eq.
    + intros s' Hs'. by rewrite lookup_insert_ne.
  - intros spec kw Hkw Hdir. rewrite run_init. unfold init_result.
    rewrite (creds_file_setting_option _ _ _ Hkw).
    rewrite makedirs_existing by by rewrite Hout.
    rewrite Hafter. cbn [py_get]. rewrite lookup_insert_eq.
    eexists. split; [done|]. done.
Qed.

Lemma update_then_read_witness :
  (run no_faults (_read_creds_file ex_self) ex_world).1 = Ok (PyDict ex_stored)
  ∧ (run no_faults (_update_creds (set_user_credentials ex_record ex_self))
         ex_world).1 = Ok tt.
Proof.
  split; [vm_compute; reflexivity|].
  apply (update_then_read ex_self ex_record ex_world ex_stored).
  vm_compute; reflexivity.
Defined.

(** C1 as stated fails: the record written for a sender replaces the one on
    disk, it is not merged over it.  The file holds [{userid: foo}] for
    foo@base.com; after an update with [{password: s3cret}] the handle
    reads back [{password: s3cret}], not the two fields together. *)
Lemma update_replaces_not_merges :
  py_get (PyDict ex_stored) "foo@base.com" = Ok ex_prior
  ∧ (∃ v, (run no_faults
             (_read_creds_file (set_user_credentials ex_record ex_self))
             (run no_faults
                (_update_creds (set_user_credentials ex_record ex_self))
                ex_world).2).1 = Ok v
          ∧ py_get v "foo@base.com" = Ok ex_record)
  ∧ ex_record ≠ merged_over ex_record ex_prior.
Proof.
  split; [by vm_compute|]. split.
  - eexists. split; by vm_compute.
  - intros H. apply (f_equal (λ v, py_get v "userid")) in H.
    vm_compute in H. discriminate H.
Qed.

(** Another handle's change made after this handle was constructed is
    kept: the update re-reads the file. *)
Lemma update_keeps_later_change self other w m :
  (run no_faults (_read_creds_file self) w).1 = Ok (PyDict m) →
  user_cred_file other = user_cred_file self →
  sender other ≠ sender self →
  let w1 := (run no_faults (_update_creds other) w).2 in
  let w2 := (run no_faults (_update_creds self) w1).2 in
  (run no_faults (_read_creds_file self) w2).1
  = Ok (PyDict (<[sender self := user_credentials self]>
                  (<[sender other := user_credentials other]> m))).
Proof.
  intros Hread Hfile Hne w1 w2.
  assert (Hw1 : (run no_faults (_read_creds_file self) w1).1
                = Ok (PyDict (<[sender other := user_credentials other]> m))).
  { subst w1. erewrite (update_ok _ other w m); [|by rewrite
      run_read_creds_file, Hfile, <-run_read_creds_file|done..].
    rewrite run_read_creds_file. cbn [fst snd]. unfold read_result.
    rewrite Hfile.
    erewrite exists_in_file; [|by rewrite set_files_files, lookup_insert_eq].
    by rewrite set_files_files, lookup_insert_eq. }
  subst w2. erewrite (update_ok _ self w1); [|exact Hw1|done..].
  rewrite run_read_creds_file. cbn [fst snd]. unfold read_result.
  erewrite exists_in_file; [|by rewrite set_files_files, lookup_insert_eq].
  by rewrite set_files_files, lookup_insert_eq.
Qed.

End update.

(** ** Credential store: failures *)

Section store_failures.
Import MailSender.

Lemma lookup_after_temp_insert w p f :
  files (set_files (insert (p ++ ".temp") f) w) !! p = files w !! p.
Proof. rewrite set_files_files. apply lookup_insert_ne. intros H. by apply (temp_ne p). Qed.

(** Whenever an update raises, the credential file is what it was. *)
Lemma update_raise_leaves_target O self w e :
  (run O (_update_creds self) w).1 = Raise e →
  files (run O (_update_creds self) w).2 !! user_cred_file self
  = files w !! user_cred_file self.
Proof.
  rewrite run_update_creds. unfold update_result.
  destruct (read_result O w (user_cred_file self)) as [v|]; [|done].
  destruct (py_setitem v _ _) as [new|]; [|done].
  destruct (os_open_fails O); [done|].
  destruct (os_write_fails O) as [torn|].
  - intros _. apply lookup_after_temp_insert.
  - destruct (os_replace_fails O); [|done].
    intros _. apply lookup_after_temp_insert.
Qed.

(** C2 at its failing input: an [os.write] that returns having written
    only part of the new document.  [_update_creds] drops the count
    [os.write] returns, so nothing is raised: the partly written temporary
    file is renamed over the credential file and the update returns
    normally.  The credential file is left half-written (it holds [part],
    and that is what the next read parses), with the mode of the temporary
    file, which is 0600 only when the update created that file and is the
    mode of a left-over temporary file otherwise. *)
Theorem short_write_tears_credentials O self w m part :
  (run O (_read_creds_file self) w).1 = Ok (PyDict m) →
  os_open_fails O = false → os_write_fails O = None →
  os_replace_fails O = false →
  os_write_short O = Some part →
  let p := user_cred_file self in
  let out := run O (_update_creds self) w in
  out.1 = Ok tt
  ∧ files out.2 !! p = Some (File part (temp_mode w (p ++ ".temp")))
  ∧ files out.2 !! (p ++ ".temp") = None
  ∧ (run no_faults (_read_creds_file self) out.2).1 = yaml_load part.
Proof.
  intros Hread Hopen Hwrite Hreplace Hshort p out.
  assert (Hout : out = (Ok tt,
                        set_files (λ fs, <[p := File part (temp_mode w (p ++ ".temp"))]>
                                           (delete (p ++ ".temp") fs)) w)).
  { subst out. revert Hread. rewrite run_update_creds, run_read_creds_file.
    unfold update_result. cbn [fst]. intros ->. cbn [py_setitem].
    by rewrite Hopen, Hwrite, Hshort, Hreplace. }
  rewrite Hout. cbn [fst snd].
  assert (Hp : files (set_files (λ fs, <[p := File part (temp_mode w (p ++ ".temp"))]>
                                         (delete (p ++ ".temp") fs)) w) !! p
               = Some (File part (temp_mode w (p ++ ".temp")))).
  { rewrite set_files_files. apply lookup_insert_eq. }
  split; [done|]. split; [exact Hp|]. split.
  - rewrite set_files_files, lookup_insert_ne by apply temp_ne.
    apply lookup_delete_eq.
  - by rewrite (read_existing_file no_faults self _ _ Hp).
Qed.

Lemma short_write_tears_credentials_witness :
  (run ex_short_write (_read_creds_file ex_self) ex_world).1 = Ok (PyDict ex_stored)
  ∧ (run ex_short_write (_update_creds ex_self) ex_world).1 = Ok tt
  ∧ files (run ex_short_write (_update_creds ex_self) ex_world).2 !! ex_creds_file
    = Some (File ex_truncated mode_0600)
  ∧ (run no_faults (_read_creds_file ex_self)
         (run ex_short_write (_update_creds ex_self) ex_world).2).1
    = Ok (PyDict {[ "bar@base.com" := PyDict {[ "password" := PyStr "hunter2" ]} ]}).
Proof.
  split; [vm_compute; reflexivity|].
  destruct (short_write_tears_credentials ex_short_write ex_self ex_world ex_stored
              ex_truncated)
    as (H1 & H2 & _ & H4); try (vm_compute; reflexivity).
  split; [exact H1|]. split; [exact H2|]. exact H4.
Defined.

(** C3 at its failing input: an existing credential file that is empty
    parses to [None], and the read returns [None] — neither a mapping nor
    a failure; a file the parser rejects raises the parser's [YAMLError],
    not wrapped the way an [IOError] in the same [try] block is. *)
Theorem read_returns_non_mapping :
  (run no_faults (_read_creds_file ex_self) (ex_world_with (Yaml PyNone))).1
  = Ok PyNone
  ∧ is_mapping PyNone = false
  ∧ (run no_faults (_read_creds_file ex_self) (ex_world_with Junk)).1
    = Raise (Builtin YAMLError)
  ∧ is_MailSenderException (Builtin YAMLError) = false
  ∧ (run (Faults true false None false false)
         (_read_creds_file ex_self) (ex_world_with Junk)).1
    = Raise (MailSenderException (Some OSError)
               ("Error opening " ++ ex_creds_file)).
Proof. repeat split; vm_compute; reflexivity. Qed.

(** C10: when the credential file exists and its document is not a
    mapping, the read returns that value as it is; constructing a handle
    on the file then raises [AttributeError] and an update raises
    [TypeError], neither of them a [MailSenderException]; the file is left
    as it was. *)
Theorem non_mapping_store_untyped_errors O self w f v :
  files w !! user_cred_file self = Some f →
  f_data f = Yaml v →
  is_mapping v = false →
  read_fails O = false →
  (run O (_read_creds_file self) w).1 = Ok v
  ∧ (∀ s domain_spec kwargs,
       creds_file_setting kwargs w = PyStr (user_cred_file self) →
       (makedirs_result O w (path_split_head (user_cred_file self))).1 = Ok tt →
       (run O (__init__ s domain_spec kwargs) w).1 = Raise (Builtin AttributeError))
  ∧ run O (_update_creds self) w = (Raise (Builtin TypeError), w)
  ∧ is_MailSenderException (Builtin AttributeError) = false
  ∧ is_MailSenderException (Builtin TypeError) = false.
Proof.
  intros Hf Hd Hv HO.
  assert (Hread : ∀ w', files w' = files w →
            read_result O w' (user_cred_file self) = Ok v).
  { intros w' Hw'. unfold read_result.
    rewrite (exists_in_file w' _ f) by by rewrite Hw'.
    by rewrite Hw', Hf, HO, Hd. }
  split; [by rewrite run_read_creds_file, Hread|].
  split; [|split; [|done]].
  - intros s spec kw Hkw Hmk. rewrite run_init. unfold init_result.
    rewrite Hkw. revert Hmk.
    destruct (makedirs_result O w _) as [made w1] eqn:Hmade.
    cbn [fst]. intros ->.
    assert (files w1 = files w) as Hw1.
    { revert Hmade. unfold makedirs_result. cbn [handle].
      repeat case_match; by intros [= <-]. }
    rewrite (Hread w1 Hw1). by destruct v.
  - rewrite run_update_creds. unfold update_result.
    rewrite (Hread w eq_refl). by destruct v.
Qed.

Lemma non_mapping_store_untyped_errors_witness :
  files (ex_world_with (Yaml PyNone)) !! user_cred_file ex_self
  = Some (File (Yaml PyNone) mode_0600)
  ∧ (run no_faults (_read_creds_file ex_self) (ex_world_with (Yaml PyNone))).1
    = Ok PyNone
  ∧ (run no_faults (__init__ "foo@base.com" (PyDict ∅) ex_kwargs)
         (ex_world_with (Yaml PyNone))).1 = Raise (Builtin AttributeError)
  ∧ run no_faults (_update_creds ex_self) (ex_world_with (Yaml PyNone))
    = (Raise (Builtin TypeError), ex_world_with (Yaml PyNone)).
Proof.
  pose proof (non_mapping_store_untyped_errors no_faults ex_self
                (ex_world_with (Yaml PyNone)) (File (Yaml PyNone) mode_0600) PyNone
                eq_refl eq_refl eq_refl eq_refl) as (H1 & H2 & H3 & _).
  split; [reflexivity|]. split; [exact H1|]. split; [|exact H3].
  apply H2; vm_compute; reflexivity.
Defined.

End store_failures.

(** C9: the constructor takes the credential file path from the
    [creds_file] option when it is given, otherwise from the environment
    variable MAILSENDER_CREDS when it is set, otherwise the default under
    the user's configuration directory; the lock file is that path with
    [.lock] appended, and with the directory in place and a readable
    mapping in the file the constructor returns a handle on that path. *)
Theorem creds_file_resolution O s domain_spec kwargs w option_ :
  kwargs !! "creds_file" = PyStr <$> option_ →
  let p := first_available option_ (environ w !! "MAILSENDER_CREDS")
             (DEFAULT_CREDS_FILE (user_config_dir w)) in
  (∀ self, (run O (MailSender.__init__ s domain_spec kwargs) w).1 = Ok self →
     MailSender.user_cred_file self = p
     ∧ MailSender.user_cred_lock self = p ++ ".lock")
  ∧ (∀ m, makedirs_fails O = false → path_split_head p ∈ dirs w →
       read_result O w p = Ok (PyDict m) →
       ∃ self, run O (MailSender.__init__ s domain_spec kwargs) w = (Ok self, w)
               ∧ MailSender.user_cred_file self = p).
Proof.
  intros Hkw p.
  assert (Hset : creds_file_setting kwargs w = PyStr p).
  { unfold creds_file_setting. rewrite Hkw. subst p.
    destruct option_ as [o|]; [done|]. simpl.
    by destruct (environ w !! "MAILSENDER_CREDS"). }
  split.
  - intros self. rewrite run_init. unfold init_result. rewrite Hset.
    destruct (makedirs_result O w (path_split_head p)) as [[[]|e] w1]; [|done].
    destruct (read_result O w1 p) as [creds|e]; [|done].
    destruct (py_get creds s) as [c|e]; [|done].
    cbn [fst]. by intros [= <-].
  - intros m HO Hdir Hread. rewrite run_init. unfold init_result. rewrite Hset.
    unfold makedirs_result. cbn [handle]. rewrite HO.
    rewrite bool_decide_eq_true_2 by done. rewrite Hread. cbn [py_get].
    eexists. split; done.
Qed.

Lemma creds_file_resolution_witness :
  (∅ : gmap string pyval) !! "creds_file" = PyStr <$> None
  ∧ ∃ self, run no_faults (MailSender.__init__ "foo@base.com" (PyDict ∅) ∅)
                ex_empty_world
            = (Ok self, ex_empty_world)
            ∧ MailSender.user_cred_file self = ex_creds_file.
Proof.
  split; [reflexivity|].
  apply (creds_file_resolution no_faults "foo@base.com" (PyDict ∅) ∅
           ex_empty_world None) with (m := ∅).
  - reflexivity.
  - reflexivity.
  - apply (bool_decide_unpack _). vm_compute. exact I.
  - vm_compute. reflexivity.
Defined.

(** The four combinations of option and environment variable. *)
Lemma first_available_cases o e d :
  first_available (Some o) (Some e) d = o
  ∧ first_available (Some o) None d = o
  ∧ first_available None (Some e) d = e
  ∧ first_available None None d = d.
Proof. done. Qed.

(** ** The factory: address parsing *)

Lemma str_split_no_sep sep n s :
  str_contains sep s = false → str_split sep n s = [s].
Proof.
  revert n. induction s as [|c s IH]; intros n; simpl; [done|].
  intros [Hc Hs]%orb_false_elim. destruct n as [|n]; [done|].
  by rewrite Hc, (IH (S n) Hs).
Qed.

Lemma str_split_length sep n s :
  List.length (str_split sep n s) = S (n `min` str_count sep s).
Proof.
  revert n. induction s as [|c s IH]; intros n; simpl.
  - by rewrite Nat.min_0_r.
  - destruct n as [|n]; [done|]. destruct (ascii_eqb c sep); simpl.
    + by rewrite IH.
    + specialize (IH (S n)).
      destruct (str_split sep (S n) s) as [|h t]; simpl in *; [done|]. done.
Qed.

Lemma str_count_contains c s :
  str_contains c s = false ↔ str_count c s = 0.
Proof.
  induction s as [|x s IH]; simpl; [done|].
  destruct (ascii_eqb x c); simpl; [split; [done|lia]|]. apply IH.
Qed.

Lemma str_split_first sep n a b :
  str_contains sep a = false →
  str_split sep (S n) (a ++ String sep b) = a :: str_split sep n b.
Proof.
  intros Ha. induction a as [|c a IH]; simpl.
  - unfold ascii_eqb. by rewrite Ascii.eqb_refl.
  - simpl in Ha. apply orb_false_elim in Ha as [Hc Ha].
    by rewrite Hc, (IH Ha).
Qed.

(** [addr@domain] with a single [@] splits into its two parts. *)
Lemma split_address addr domain :
  str_contains at_sign addr = false →
  str_contains at_sign domain = false →
  str_split at_sign 2 (addr ++ "@" ++ domain) = [addr; domain].
Proof.
  intros Ha Hd. change ("@" ++ domain) with (String at_sign domain).
  by rewrite str_split_first, (str_split_no_sep _ _ _ Hd).
Qed.

Lemma app_nonempty a c b : a ++ String c b ≠ "".
Proof. by destruct a. Qed.

Lemma truthy_str s : s ≠ "" → truthy (PyStr s) = true.
Proof. intros H. simpl. by destruct s. Qed.

Lemma truthy_dict (d : gmap string pyval) : d ≠ ∅ → truthy (PyDict d) = true.
Proof. intros H. simpl. by rewrite bool_decide_eq_false_2. Qed.

Lemma contains_ne c (s t : string) :
  str_contains c s = true → str_contains c t = false → String.eqb s t = false.
Proof.
  intros Hs Ht. apply String.eqb_neq. intros ->. congruence.
Qed.

(** ** The factory: dispatch *)

Section factory.
Context (O : faults).

(** Everything up to the protocol lookup, for a well-formed address whose
    domain has a non-empty specification. *)
Lemma mail_sender_protocol addr domain conf spec kwargs w :
  str_contains at_sign addr = false →
  str_contains at_sign domain = false →
  conf !! domain = Some (PyDict spec) → spec ≠ ∅ →
  run O (mail_sender (addr ++ "@" ++ domain) conf kwargs) w
  = run O
      (let sender := addr ++ "@" ++ domain in
       let domain_spec := PyDict spec in
       let protocol := default (PyStr "smtp") (spec !! "protocol") in
       if eq_str protocol "smtp"
       then ret (SMTPSender sender domain_spec kwargs)
       else
         has_colon <- lift (py_contains colon protocol) ;;
         if negb has_colon
         then raise (MailSenderException None
                       ("No implementation specified for domain " ++ domain))
         else
           parts <- lift (py_split colon 1 protocol) ;;
           match parts with
           | [module_; class_] =>
               try_except
                 (mod_ <- do (import_module module_) ;;
                  cls <- lift (getattr mod_ class_) ;;
                  inst <- construct cls sender domain_spec kwargs ;;
                  if negb (isinstance_MailSender inst)
                  then raise (MailSenderException None
                                (module_ ++ ":" ++ class_ ++ " for " ++
                                 domain ++ " is not a MailSender"))
                  else instance_open inst)
                 is_ModuleNotFound_or_Attribute
                 (λ e, raise (MailSenderUnsupportedException (as_cause e)
                                (module_ ++ ":" ++ class_ ++
                                 " for email domain " ++ domain ++ " unknown)")))
           | _ => raise (Builtin ValueError)
           end)%py w.
Proof.
  intros Ha Hd Hconf Hspec. unfold mail_sender.
  rewrite truthy_str by apply app_nonempty. cbn [negb].
  rewrite (split_address _ _ Ha Hd), Hconf. cbn [default from_option id].
  rewrite (truthy_dict _ Hspec). cbn [negb].
  rewrite run_seq. unfold lift at 1. rewrite run_Ret. cbn [fst snd py_get_default].
  done.
Qed.

(** An address that does not split into exactly two parts stops at the
    tuple unpacking. *)
Lemma mail_sender_unpack s conf kwargs w :
  s ≠ "" → List.length (str_split at_sign 2 s) ≠ 2 →
  run O (mail_sender s conf kwargs) w = (Raise (Builtin ValueError), w).
Proof.
  intros Hs Hlen. unfold mail_sender. rewrite (truthy_str _ Hs). cbn [negb].
  destruct (str_split at_sign 2 s) as [|a [|b [|c l]]]; done.
Qed.

(** C5 at its failing inputs: for a non-empty sender address with no [@],
    or with more than one, [mail_sender] raises [ValueError] from the tuple
    unpacking — not a [MailSenderException] — and touches nothing. *)
Theorem invalid_address_raises_ValueError s conf kwargs w :
  s ≠ "" →
  str_contains at_sign s = false ∨ (2 ≤ str_count at_sign s)%nat →
  run O (mail_sender s conf kwargs) w = (Raise (Builtin ValueError), w)
  ∧ is_MailSenderException (Builtin ValueError) = false.
Proof.
  intros Hs Hat. split; [|done]. apply mail_sender_unpack; [done|].
  rewrite str_split_length. destruct Hat as [H0|H2].
  - apply str_count_contains in H0. rewrite H0. by rewrite Nat.min_0_r.
  - rewrite Nat.min_l by done. done.
Qed.

(** C7: a protocol other than ["smtp"] without a [:] is refused with the
    [MailSenderException] "No implementation specified for domain ...". *)
Theorem no_implementation addr domain conf spec protocol kwargs w :
  str_contains at_sign addr = false →
  str_contains at_sign domain = false →
  conf !! domain = Some (PyDict spec) →
  spec !! "protocol" = Some (PyStr protocol) →
  protocol ≠ "smtp" →
  str_contains colon protocol = false →
  run O (mail_sender (addr ++ "@" ++ domain) conf kwargs) w
  = (Raise (MailSenderException None
              ("No implementation specified for domain " ++ domain)), w).
Proof.
  intros Ha Hd Hconf Hproto Hns Hnc.
  rewrite (mail_sender_protocol _ _ _ _ _ _ Ha Hd Hconf)
    by (intros ->; by rewrite lookup_empty in Hproto).
  cbv zeta. rewrite Hproto. cbn [default from_option id eq_str].
  apply String.eqb_neq in Hns. rewrite Hns.
  rewrite run_seq. unfold lift. rewrite run_Ret. cbn [fst snd py_contains].
  by rewrite Hnc.
Qed.

(** The dynamic branch, up to the [try] block. *)
Lemma mail_sender_dynamic addr domain conf spec module_ class_ kwargs w :
  str_contains at_sign addr = false →
  str_contains at_sign domain = false →
  conf !! domain = Some (PyDict spec) →
  spec !! "protocol" = Some (PyStr (module_ ++ ":" ++ class_)) →
  str_contains colon module_ = false →
  run O (mail_sender (addr ++ "@" ++ domain) conf kwargs) w
  = run O
      (try_except
         (mod_ <- do (import_module module_) ;;
          cls <- lift (getattr mod_ class_) ;;
          inst <- construct cls (addr ++ "@" ++ domain) (PyDict spec) kwargs ;;
          if negb (isinstance_MailSender inst)
          then raise (MailSenderException None
                        (module_ ++ ":" ++ class_ ++ " for " ++
                         domain ++ " is not a MailSender"))
          else instance_open inst)
         is_ModuleNotFound_or_Attribute
         (λ e, raise (MailSenderUnsupportedException (as_cause e)
                        (module_ ++ ":" ++ class_ ++
                         " for email domain " ++ domain ++ " unknown)"))))%py w.
Proof.
  intros Ha Hd Hconf Hproto Hm.
  rewrite (mail_sender_protocol _ _ _ _ _ _ Ha Hd Hconf)
    by (intros ->; by rewrite lookup_empty in Hproto).
  cbv zeta. rewrite Hproto. cbn [default from_option id eq_str].
  assert (Hc : str_contains colon (module_ ++ ":" ++ class_) = true).
  { rewrite str_contains_app. simpl. by rewrite orb_true_r. }
  rewrite (contains_ne colon _ "smtp" Hc) by done.
  rewrite run_seq. unfold lift at 1. rewrite run_Ret. cbn [fst snd py_contains].
  rewrite Hc. cbn [negb].
  rewrite run_seq. unfold lift at 1. rewrite run_Ret. cbn [fst snd py_split].
  change (":" ++ class_) with (String colon class_).
  rewrite (str_split_first _ _ _ _ Hm). by destruct class_.
Qed.




(** A class derived from [MailSender] is constructed and opened. *)
Lemma dynamic_resolution_ok addr domain conf spec module_ class_ kwargs w
    mod_ name self w' :
  str_contains at_sign addr = false →
  str_contains at_sign domain = false →
  conf !! domain = Some (PyDict spec) →
  spec !! "protocol" = Some (PyStr (module_ ++ ":" ++ class_)) →
  str_contains colon module_ = false →
  modules w !! module_ = Some mod_ →
  mod_ !! class_ = Some (MailSenderSubclass name) →
  run O (MailSender.__init__ (addr ++ "@" ++ domain) (PyDict spec) kwargs) w
  = (Ok self, w') →
  run O (mail_sender (addr ++ "@" ++ domain) conf kwargs) w
  = (Ok (SubclassInstance name self), w').
Proof.
  intros Ha Hd Hconf Hproto Hm Hmod Hcls Hinit.
  rewrite (mail_sender_dynamic _ _ _ _ _ _ _ _ Ha Hd Hconf Hproto Hm).
  rewrite run_try_except, run_seq, run_do. cbn [handle]. rewrite Hmod.
  cbn [fst snd]. rewrite run_seq. unfold lift, getattr. rewrite Hcls, run_Ret.
  cbn [fst snd]. rewrite run_seq. unfold construct. rewrite run_seq, Hinit.
  cbn [fst snd]. done.
Qed.

(** C4 (as amended): a non-empty domain specification without a
    [protocol] field is dispatched like the same specification with
    [protocol = "smtp"] added: both construct the built-in SMTP sender,
    each with the specification it was given. *)
Theorem default_protocol_is_smtp addr domain conf spec kwargs w :
  str_contains at_sign addr = false →
  str_contains at_sign domain = false →
  conf !! domain = Some (PyDict spec) →
  spec ≠ ∅ →
  spec !! "protocol" = None →
  let sender := addr ++ "@" ++ domain in
  let spec' := <["protocol" := PyStr "smtp"]> spec in
  run O (mail_sender sender conf kwargs) w
  = (Ok (SMTPSender sender (PyDict spec) kwargs), w)
  ∧ run O (mail_sender sender (<[domain := PyDict spec']> conf) kwargs) w
    = (Ok (SMTPSender sender (PyDict spec') kwargs), w).
Proof.
  intros Ha Hd Hconf Hne Hproto sender spec'. split.
  - subst sender. rewrite (mail_sender_protocol _ _ _ _ _ _ Ha Hd Hconf Hne).
    cbv zeta. by rewrite Hproto.
  - subst sender.
    rewrite (mail_sender_protocol _ _ _ spec' _ _ Ha Hd);
      [|apply lookup_insert_eq|apply insert_non_empty].
    cbv zeta. subst spec'. by rewrite lookup_insert_eq.
Qed.

End factory.

Lemma invalid_address_raises_ValueError_witness :
  "foo" ≠ ""
  ∧ run no_faults (mail_sender "foo" {[ "base.com" := PyDict ∅ ]} ∅) ex_world
    = (Raise (Builtin ValueError), ex_world).
Proof.
  split; [discriminate|].
  apply (invalid_address_raises_ValueError no_faults "foo"
           {[ "base.com" := PyDict ∅ ]} ∅ ex_world); [discriminate|].
  left. reflexivity.
Defined.

Lemma no_implementation_witness :
  run no_faults
    (mail_sender "foo@bad.server"
       {[ "bad.server" := PyDict {[ "protocol" := PyStr "nope" ]} ]} ∅) ex_world
  = (Raise (MailSenderException None
              "No implementation specified for domain bad.server"), ex_world).
Proof.
  apply (no_implementation no_faults "foo" "bad.server"
           {[ "bad.server" := PyDict {[ "protocol" := PyStr "nope" ]} ]}
           {[ "protocol" := PyStr "nope" ]} "nope" ∅ ex_world);
    try reflexivity.
  discriminate.
Defined.


Lemma default_protocol_is_smtp_witness :
  run no_faults
    (mail_sender "foo@base.com"
       {[ "base.com" := PyDict {[ "server" := PyStr "smtp.base.com" ]} ]} ∅)
    ex_world
  = (Ok (SMTPSender "foo@base.com"
           (PyDict {[ "server" := PyStr "smtp.base.com" ]}) ∅), ex_world).
Proof.
  apply (default_protocol_is_smtp no_faults "foo" "base.com"
           {[ "base.com" := PyDict {[ "server" := PyStr "smtp.base.com" ]} ]}
           {[ "server" := PyStr "smtp.base.com" ]} ∅ ex_world);
    try reflexivity.
  apply insert_non_empty.
Defined.

(** C4 as stated fails on the empty specification: with the table
    [{"base.com": {}}] the factory refuses foo@base.com as an unrecognized
    domain, while with [{"base.com": {"protocol": "smtp"}}] it constructs
    the SMTP sender. *)
Lemma empty_spec_not_smtp :
  run no_faults (mail_sender "foo@base.com" {[ "base.com" := PyDict ∅ ]} ∅)
      ex_world
  = (Raise (MailSenderException None "Domain base.com isn't recognized"), ex_world)
  ∧ run no_faults
      (mail_sender "foo@base.com"
         {[ "base.com" := PyDict {[ "protocol" := PyStr "smtp" ]} ]} ∅) ex_world
    = (Ok (SMTPSender "foo@base.com" (PyDict {[ "protocol" := PyStr "smtp" ]}) ∅),
       ex_world).
Proof. split; vm_compute; reflexivity. Qed.

(** ** Processes: the lock serializes guarded blocks *)

Section lock_steps.
Context (O : faults) (l : string).

Lemma pstep_call i {A X} (c : call X) (k : X → prog A) L w :
  is_lock_call c = false →
  pstep O i (Vis c k) L w = Some (k (handle O c w).1, L, (handle O c w).2).
Proof.
  intros Hc. destruct c; try discriminate Hc; simpl;
    repeat case_match; simplify_eq; done.
Qed.

(** A free lock is taken at once. *)
Lemma pstep_with_lock_free i {A} (body : py A) w :
  pstep O i (with_lock l body) ∅ w = Some (rest l body, {[ l := (i, 1) ]}, w).
Proof. done. Qed.

(** A lock held by the other process blocks. *)
Lemma pstep_with_lock_held i j d {A} (body : py A) w :
  i ≠ j → pstep O i (with_lock l body) {[ l := (j, d) ]} w = None.
Proof.
  intros Hij. unfold with_lock. simpl. rewrite lookup_singleton_eq.
  by rewrite decide_False.
Qed.

(** One step inside a guarded block: either the block is left, releasing
    the lock, or the process is still inside with the same overall
    result ahead of it. *)
Lemma pstep_rest i {A} (q : py A) d L w p' L' w' :
  inside l (S d) 1 q → L = {[ l := (i, S d) ]} →
  pstep O i (rest l q) L w = Some (p', L', w') →
  (p' = Ret (run O q w).1 ∧ L' = ∅ ∧ w' = (run O q w).2)
  ∨ ∃ q' d', inside l (S d') 1 q' ∧ p' = rest l q'
             ∧ L' = {[ l := (i, S d') ]} ∧ run O q' w' = run O q w.
Proof.
  intros Hin ->. inversion Hin as [d0 a|d0 d1 k Hk|d0 d1 k Hk|X c d0 d1 k Hc Hk];
    simplify_eq.
  - (* the body has returned: release *)
    simpl. rewrite lookup_singleton_eq, decide_True by done.
    intros [= <- <- <-]. left. by rewrite delete_singleton_eq.
  - (* re-entering *)
    simpl. rewrite lookup_singleton_eq, decide_True by done.
    intros [= <- <- <-]. right. exists (k tt), (S d).
    by rewrite insert_singleton_eq.
  - (* leaving an inner block *)
    simpl. rewrite lookup_singleton_eq, decide_True by done.
    intros [= <- <- <-]. right. exists (k tt), d0.
    by rewrite insert_singleton_eq.
  - (* any other call *)
    unfold rest, try_finally. cbn [bind]. rewrite (pstep_call _ _ _ _ _ Hc).
    intros [= <- <- <-]. right. exists (k (handle O c w).1), d.
    split; [apply Hk|]. split; [done|]. split; [done|].
    simpl. by destruct (handle O c w).
Qed.

Lemma pstep_rest_progress i {A} (q : py A) d w :
  inside l (S d) 1 q →
  ∃ r, pstep O i (rest l q) {[ l := (i, S d) ]} w = Some r.
Proof.
  intros Hin. inversion Hin as [d0 a|d0 d1 k Hk|d0 d1 k Hk|X c d0 d1 k Hc Hk];
    simplify_eq.
  - simpl. rewrite lookup_singleton_eq, decide_True by done. by eexists.
  - simpl. rewrite lookup_singleton_eq, decide_True by done. by eexists.
  - simpl. rewrite lookup_singleton_eq, decide_True by done. by eexists.
  - unfold rest, try_finally. cbn [bind]. rewrite (pstep_call _ _ _ _ _ Hc).
    by eexists.
Qed.

End lock_steps.

Section serialization.
Context (O : faults) (l : string) {A B : Type}.
Context (body1 : py A) (body2 : py B) (w : world).
Context (Hbody1 : inside l 1 1 body1) (Hbody2 : inside l 1 1 body2).

#[local] Abbreviation serial := (serial O l body1 body2 w).

Lemma serial_step s s' : serial s → step O s s' → serial s'.
Proof.
  intros Hs Hstep.
  destruct Hs as [|q d w' Hq Hrun| |q d w' Hq Hrun| |q d w' Hq Hrun| |q d w' Hq Hrun|];
    inversion Hstep as [s0 p' L' w'' Hp|s0 p' L' w'' Hp]; subst; cbn in Hp.
  - (* start, process 1 enters *)
    injection Hp as <- <- <-. by apply (serial_in1 _ _ _ _ _ body1 0).
  - (* start, process 2 enters *)
    injection Hp as <- <- <-. by apply (serial_in2 _ _ _ _ _ body2 0).
  - (* process 1 inside, it moves *)
    change (pstep O P1 (rest l q) {[ l := (P1, S d) ]} w' = Some (p', L', w''))
      in Hp.
    apply (pstep_rest O l P1 q d _ _ _ _ _ Hq eq_refl) in Hp
      as [(-> & -> & ->)|(q' & d' & Hq' & -> & -> & Hrun')].
    + rewrite Hrun. apply serial_done1.
    + apply serial_in1; [done|]. by rewrite Hrun'.
  - (* process 1 inside, process 2 is blocked *)
    change (pstep O P2 (with_lock l body2) {[ l := (P1, S d) ]} w'
            = Some (p', L', w'')) in Hp.
    by rewrite pstep_with_lock_held in Hp.
  - (* process 1 done: it has no step *)
    done.
  - (* process 1 done, process 2 enters *)
    injection Hp as <- <- <-. by apply (serial_in2_after1 _ _ _ _ _ body2 0).
  - done.
  - change (pstep O P2 (rest l q) {[ l := (P2, S d) ]} w' = Some (p', L', w''))
      in Hp.
    apply (pstep_rest O l P2 q d _ _ _ _ _ Hq eq_refl) in Hp
      as [(-> & -> & ->)|(q' & d' & Hq' & -> & -> & Hrun')].
    + rewrite Hrun. apply serial_done12.
    + apply serial_in2_after1; [done|]. by rewrite Hrun'.
  - done.
  - done.
  - (* process 2 inside, process 1 is blocked *)
    change (pstep O P1 (with_lock l body1) {[ l := (P2, S d) ]} w'
            = Some (p', L', w'')) in Hp.
    by rewrite pstep_with_lock_held in Hp.
  - change (pstep O P2 (rest l q) {[ l := (P2, S d) ]} w' = Some (p', L', w''))
      in Hp.
    apply (pstep_rest O l P2 q d _ _ _ _ _ Hq eq_refl) in Hp
      as [(-> & -> & ->)|(q' & d' & Hq' & -> & -> & Hrun')].
    + rewrite Hrun. apply serial_done2.
    + apply serial_in2; [done|]. by rewrite Hrun'.
  - (* process 2 done, process 1 enters *)
    injection Hp as <- <- <-. by apply (serial_in1_after2 _ _ _ _ _ body1 0).
  - done.
  - change (pstep O P1 (rest l q) {[ l := (P1, S d) ]} w' = Some (p', L', w''))
      in Hp.
    apply (pstep_rest O l P1 q d _ _ _ _ _ Hq eq_refl) in Hp
      as [(-> & -> & ->)|(q' & d' & Hq' & -> & -> & Hrun')].
    + rewrite Hrun. apply serial_done21.
    + apply serial_in1_after2; [done|]. by rewrite Hrun'.
  - done.
  - done.
  - done.
Qed.

Lemma serial_reachable s :
  rtc (step O) (System (with_lock l body1) (with_lock l body2) ∅ w) s →
  serial s.
Proof.
  revert s. apply rtc_ind_r.
  - apply serial_start.
  - intros y z _ Hstep Hy. by apply (serial_step y z).
Qed.

Lemma rest_not_Ret {X} (q : py X) r : rest l q ≠ Ret r.
Proof. by destruct q. Qed.

(** When both have returned, the outcome is that of running the two
    blocks one after the other, in one of the two orders. *)
Lemma serial_finished s a b :
  serial s → finished s a b →
  locks s = ∅
  ∧ ((a = (run O body1 w).1 ∧ b = (run O body2 (run O body1 w).2).1
      ∧ disk s = (run O body2 (run O body1 w).2).2)
     ∨ (b = (run O body2 w).1 ∧ a = (run O body1 (run O body2 w).2).1
        ∧ disk s = (run O body1 (run O body2 w).2).2)).
Proof.
  intros Hs [Ha Hb].
  destruct Hs; cbn in Ha, Hb; try discriminate Ha; try discriminate Hb;
    try (by apply rest_not_Ret in Ha); try (by apply rest_not_Ret in Hb).
  - injection Ha as <-. injection Hb as <-. split; [done|]. by left.
  - injection Ha as <-. injection Hb as <-. split; [done|]. by right.
Qed.

(** No deadlock: a state that is not final has a step. *)
Lemma serial_progress s :
  serial s → (∃ a b, finished s a b) ∨ ∃ s', step O s s'.
Proof.
  intros Hs. destruct Hs as
    [|q d w' Hq Hrun| |q d w' Hq Hrun| |q d w' Hq Hrun| |q d w' Hq Hrun|].
  - right. eexists. apply step_proc1. apply pstep_with_lock_free.
  - right. destruct (pstep_rest_progress O l P1 q d w' Hq) as [[[p' L'] w''] Hp].
    eexists. apply step_proc1. exact Hp.
  - right. eexists. apply step_proc2. apply pstep_with_lock_free.
  - right. destruct (pstep_rest_progress O l P2 q d w' Hq) as [[[p' L'] w''] Hp].
    eexists. apply step_proc2. exact Hp.
  - left. by do 2 eexists.
  - right. destruct (pstep_rest_progress O l P2 q d w' Hq) as [[[p' L'] w''] Hp].
    eexists. apply step_proc2. exact Hp.
  - right. eexists. apply step_proc1. apply pstep_with_lock_free.
  - right. destruct (pstep_rest_progress O l P1 q d w' Hq) as [[[p' L'] w''] Hp].
    eexists. apply step_proc1. exact Hp.
  - left. by do 2 eexists.
Qed.

End serialization.

(** A process inside its block runs it to the end when scheduled. *)
Section run_inside.
Context (O : faults) (l : string).

Lemma inside_run1 {A B} (q : py A) (p2 : prog B) n :
  inside l n 1 q → ∀ d w, n = S d →
  rtc (step O) (System (rest l q) p2 {[ l := (P1, S d) ]} w)
               (System (Ret (run O q w).1) p2 ∅ (run O q w).2).
Proof.
  remember 1 as m eqn:Hm. intros Hin. revert Hm.
  induction Hin as [n a|n m k Hk IH|n m k Hk IH|X c n m k Hc Hk IH];
    intros Hm d w Hn; subst.
  - injection Hn as <-. apply rtc_once.
    apply (step_proc1 O (System (rest l (Ret a)) p2 {[ l := (P1, 1) ]} w)).
    simpl. rewrite lookup_singleton_eq, decide_True by done.
    by rewrite delete_singleton_eq.
  - eapply rtc_l; [|apply (IH eq_refl (S d) w eq_refl)].
    apply (step_proc1 O
             (System (rest l (Vis (Acquire l) k)) p2 {[ l := (P1, S d) ]} w)).
    simpl. rewrite lookup_singleton_eq, decide_True by done.
    by rewrite insert_singleton_eq.
  - injection Hn as <-. eapply rtc_l; [|apply (IH eq_refl n w eq_refl)].
    apply (step_proc1 O
             (System (rest l (Vis (Release l) k)) p2 {[ l := (P1, S (S n)) ]} w)).
    simpl. rewrite lookup_singleton_eq, decide_True by done.
    by rewrite insert_singleton_eq.
  - simpl. destruct (handle O c w) as [x w'] eqn:Hh.
    eapply rtc_l; [|apply (IH x eq_refl d w' eq_refl)].
    replace (System (rest l (k x)) p2 {[ l := (P1, S d) ]} w')
      with (System (rest l (k (handle O c w).1)) p2 {[ l := (P1, S d) ]}
                   (handle O c w).2) by by rewrite Hh.
    apply (step_proc1 O
             (System (rest l (Vis c k)) p2 {[ l := (P1, S d) ]} w)).
    unfold rest, try_finally. cbn [bind proc1 locks disk].
    by rewrite (pstep_call _ _ _ _ _ _ Hc).
Qed.

Lemma inside_run2 {A B} (q : py B) (p1 : prog A) n :
  inside l n 1 q → ∀ d w, n = S d →
  rtc (step O) (System p1 (rest l q) {[ l := (P2, S d) ]} w)
               (System p1 (Ret (run O q w).1) ∅ (run O q w).2).
Proof.
  remember 1 as m eqn:Hm. intros Hin. revert Hm.
  induction Hin as [n a|n m k Hk IH|n m k Hk IH|X c n m k Hc Hk IH];
    intros Hm d w Hn; subst.
  - injection Hn as <-. apply rtc_once.
    apply (step_proc2 O (System p1 (rest l (Ret a)) {[ l := (P2, 1) ]} w)).
    simpl. rewrite lookup_singleton_eq, decide_True by done.
    by rewrite delete_singleton_eq.
  - eapply rtc_l; [|apply (IH eq_refl (S d) w eq_refl)].
    apply (step_proc2 O
             (System p1 (rest l (Vis (Acquire l) k)) {[ l := (P2, S d) ]} w)).
    simpl. rewrite lookup_singleton_eq, decide_True by done.
    by rewrite insert_singleton_eq.
  - injection Hn as <-. eapply rtc_l; [|apply (IH eq_refl n w eq_refl)].
    apply (step_proc2 O
             (System p1 (rest l (Vis (Release l) k)) {[ l := (P2, S (S n)) ]} w)).
    simpl. rewrite lookup_singleton_eq, decide_True by done.
    by rewrite insert_singleton_eq.
  - simpl. destruct (handle O c w) as [x w'] eqn:Hh.
    eapply rtc_l; [|apply (IH x eq_refl d w' eq_refl)].
    replace (System p1 (rest l (k x)) {[ l := (P2, S d) ]} w')
      with (System p1 (rest l (k (handle O c w).1)) {[ l := (P2, S d) ]}
                   (handle O c w).2) by by rewrite Hh.
    apply (step_proc2 O
             (System p1 (rest l (Vis c k)) {[ l := (P2, S d) ]} w)).
    unfold rest, try_finally. cbn [bind proc1 proc2 locks disk].
    by rewrite (pstep_call _ _ _ _ _ _ Hc).
Qed.

(** Some schedule lets both blocks finish: the first, then the second. *)
Lemma serial_run_exists {A B} (body1 : py A) (body2 : py B) w :
  inside l 1 1 body1 → inside l 1 1 body2 →
  rtc (step O) (System (with_lock l body1) (with_lock l body2) ∅ w)
      (System (Ret (run O body1 w).1)
              (Ret (run O body2 (run O body1 w).2).1) ∅
              (run O body2 (run O body1 w).2).2).
Proof.
  intros H1 H2.
  eapply rtc_l.
  { apply (step_proc1 O (System (with_lock l body1) (with_lock l body2) ∅ w)).
    apply pstep_with_lock_free. }
  etrans; [by apply (inside_run1 body1 _ 1 H1 0)|].
  eapply rtc_l.
  { apply (step_proc2 O (System (Ret (run O body1 w).1) (with_lock l body2) ∅
                                (run O body1 w).2)).
    apply pstep_with_lock_free. }
  by apply (inside_run2 body2 _ 1 H2 0).
Qed.

End run_inside.


(** ** The credential-file methods are lock-guarded blocks *)

Section inside_lemmas.
Context (l : string).

Lemma inside_bind {A B} (m : prog A) (f : A → prog B) d d' d'' :
  inside l d d' m → (∀ a, inside l d' d'' (f a)) → inside l d d'' (bind m f).
Proof.
  intros Hm. revert d''. induction Hm as [|? ? ? ? IH|? ? ? ? IH|? ? ? ? ? ? ? IH];
    intros d'' Hf; cbn [bind].
  - apply Hf.
  - apply inside_Acquire. by apply IH.
  - apply inside_Release. by apply IH.
  - apply inside_call; [done|]. intros x. by apply IH.
Qed.

Lemma inside_do {X} (c : call X) d : is_lock_call c = false → inside l d d (do c).
Proof. intros Hc. apply inside_call; [done|]. intros x. constructor. Qed.

Lemma inside_seq {A B} (m : py A) (f : A → py B) d :
  inside l d d m → (∀ a, inside l d d (f a)) → inside l d d (seq m f).
Proof.
  intros Hm Hf. apply (inside_bind _ _ d d d Hm). intros [a|e]; [apply Hf|constructor].
Qed.

Lemma inside_try_except {A} (m : py A) catches h d :
  inside l d d m → (∀ e, inside l d d (h e)) →
  inside l d d (try_except m catches h).
Proof.
  intros Hm Hh. apply (inside_bind _ _ d d d Hm).
  intros [a|e]; [constructor|]. destruct (catches e); [apply Hh|constructor].
Qed.

Lemma inside_try_finally {A} (m : py A) (f : prog unit) d :
  inside l d d m → inside l d d f → inside l d d (try_finally m f).
Proof.
  intros Hm Hf. apply (inside_bind _ _ d d d Hm). intros r.
  apply (inside_bind _ _ d d d Hf). intros _. constructor.
Qed.

Lemma inside_with_lock {A} (body : py A) d :
  inside l (S (S d)) (S (S d)) body → inside l (S d) (S d) (with_lock l body).
Proof.
  intros Hb. unfold with_lock. cbn [bind do]. apply inside_Acquire.
  apply (inside_bind _ _ _ _ _ Hb). intros r. cbn [bind do].
  apply inside_Release. constructor.
Qed.

End inside_lemmas.

Section guarded_methods.
Import MailSender.

Lemma read_creds_file_guarded self :
  ∃ body, _read_creds_file self = with_lock (user_cred_lock self) body
          ∧ ∀ d, inside (user_cred_lock self) d d body.
Proof.
  eexists. split; [reflexivity|]. intros d.
  apply (inside_bind _ _ _ d d d); [by apply inside_do|]. intros [|].
  - apply inside_try_except; [|intros e; constructor].
    apply inside_seq; [by apply inside_do|]. intros f.
    apply inside_seq; constructor.
  - constructor.
Qed.

Lemma read_creds_file_inside self d :
  inside (user_cred_lock self) (S d) (S d) (_read_creds_file self).
Proof.
  destruct (read_creds_file_guarded self) as (body & -> & Hb).
  apply inside_with_lock, Hb.
Qed.

Lemma update_creds_guarded self :
  ∃ body, _update_creds self = with_lock (user_cred_lock self) body
          ∧ ∀ d, inside (user_cred_lock self) (S d) (S d) body.
Proof.
  eexists. split; [reflexivity|]. intros d.
  apply inside_seq; [apply read_creds_file_inside|]. intros current.
  apply inside_seq; [constructor|]. intros new. cbv zeta.
  apply inside_try_except; [|intros e; constructor].
  apply inside_seq; [by apply inside_do|]. intros fd.
  apply inside_seq; [|intros _; by apply inside_do].
  apply inside_try_finally; [|by apply inside_do].
  apply inside_try_except; [by apply inside_do|]. intros e. constructor.
Qed.

End guarded_methods.

(** ** Linearizability of guarded blocks *)

Section linearizable.
Context (O : faults) (l : string) {A B : Type}.
Context (p1 body1 : py A) (p2 body2 : py B) (w : world).
Context (Hp1 : p1 = with_lock l body1) (Hp2 : p2 = with_lock l body2).
Context (Hbody1 : inside l 1 1 body1) (Hbody2 : inside l 1 1 body2).

(** Every complete run of the two processes has the results and the final
    world of running one block after the other, and leaves the lock free. *)
Lemma guarded_serializable s a b :
  rtc (step O) (System p1 p2 ∅ w) s → finished s a b →
  locks s = ∅
  ∧ ((a = (run O p1 w).1 ∧ b = (run O p2 (run O p1 w).2).1
      ∧ disk s = (run O p2 (run O p1 w).2).2)
     ∨ (b = (run O p2 w).1 ∧ a = (run O p1 (run O p2 w).2).1
        ∧ disk s = (run O p1 (run O p2 w).2).2)).
Proof.
  subst p1 p2. intros Hsteps Hfin. rewrite !run_with_lock.
  apply (serial_finished O l body1 body2 w); [|done].
  by apply serial_reachable.
Qed.

Lemma guarded_no_deadlock s :
  rtc (step O) (System p1 p2 ∅ w) s →
  (∃ a b, finished s a b) ∨ ∃ s', step O s s'.
Proof.
  subst p1 p2. intros Hsteps.
  apply (serial_progress O l body1 body2 w). by apply serial_reachable.
Qed.

Lemma guarded_finishes :
  ∃ s, rtc (step O) (System p1 p2 ∅ w) s
       ∧ finished s (run O p1 w).1 (run O p2 (run O p1 w).2).1.
Proof.
  subst p1 p2. rewrite !run_with_lock. eexists. split.
  - by apply serial_run_exists.
  - done.
Qed.

End linearizable.

Section concurrent_updates.
Import MailSender.

(** C8: two processes updating the same credential file for two different
    senders, in any interleaving of their calls: every complete run ends
    with both updates successful and the file as if one update had run
    entirely before the other, so both records are in it and the other
    senders' records are unchanged; some run completes and no run
    deadlocks; and a process reading the file while another updates it
    gets the mapping from before the update or the one from after it. *)
Theorem concurrent_updates_linearizable self1 self2 reader w m :
  user_cred_file self2 = user_cred_file self1 →
  user_cred_lock self2 = user_cred_lock self1 →
  user_cred_file reader = user_cred_file self1 →
  user_cred_lock reader = user_cred_lock self1 →
  sender self1 ≠ sender self2 →
  (run no_faults (_read_creds_file self1) w).1 = Ok (PyDict m) →
  let update1 := _update_creds self1 in
  let update2 := _update_creds self2 in
  let both := System update1 update2 ∅ w in
  let racing := System update1 (_read_creds_file reader) ∅ w in
  (∀ s a b, rtc (step no_faults) both s → finished s a b →
     a = Ok tt ∧ b = Ok tt ∧ locks s = ∅
     ∧ (disk s = (run no_faults update2 (run no_faults update1 w).2).2
        ∨ disk s = (run no_faults update1 (run no_faults update2 w).2).2)
     ∧ ∃ m', (run no_faults (_read_creds_file self1) (disk s)).1 = Ok (PyDict m')
             ∧ m' !! sender self1 = Some (user_credentials self1)
             ∧ m' !! sender self2 = Some (user_credentials self2)
             ∧ ∀ x, x ≠ sender self1 → x ≠ sender self2 → m' !! x = m !! x)
  ∧ (∃ s, rtc (step no_faults) both s ∧ finished s (Ok tt) (Ok tt))
  ∧ (∀ s, rtc (step no_faults) both s →
       (∃ a b, finished s a b) ∨ ∃ s', step no_faults s s')
  ∧ (∀ s a b, rtc (step no_faults) racing s → finished s a b →
       a = Ok tt
       ∧ (b = Ok (PyDict m)
          ∨ b = Ok (PyDict (<[sender self1 := user_credentials self1]> m)))).
Proof.
  intros Hfile2 Hlock2 Hfile Hlock Hne Hread update1 update2 both racing.
  destruct (update_creds_guarded self1) as (body1 & E1 & H1).
  destruct (update_creds_guarded self2) as (body2 & E2 & H2).
  destruct (read_creds_file_guarded reader) as (bodyr & Er & Hr).
  rewrite Hlock2 in E2, H2. rewrite Hlock in Er, Hr.
  assert (Hread2 : (run no_faults (_read_creds_file self2) w).1 = Ok (PyDict m)).
  { by rewrite run_read_creds_file, Hfile2, <-run_read_creds_file. }
  assert (Hu1 : (run no_faults update1 w).1 = Ok tt).
  { subst update1. by erewrite update_ok. }
  assert (Hu2 : (run no_faults update2 w).1 = Ok tt).
  { subst update2. by erewrite update_ok. }
  assert (H12 : (run no_faults (_read_creds_file self2)
                   (run no_faults update1 w).2).1
                = Ok (PyDict (<[sender self1 := user_credentials self1]> m))).
  { subst update1. erewrite update_ok; [|done..].
    rewrite run_read_creds_file. cbn [fst snd]. unfold read_result.
    rewrite Hfile2.
    erewrite exists_in_file; [|by rewrite set_files_files, lookup_insert_eq].
    by rewrite set_files_files, lookup_insert_eq. }
  assert (H21 : (run no_faults (_read_creds_file self1)
                   (run no_faults update2 w).2).1
                = Ok (PyDict (<[sender self2 := user_credentials self2]> m))).
  { subst update2. erewrite update_ok; [|done..].
    rewrite run_read_creds_file. cbn [fst snd]. unfold read_result.
    rewrite <-Hfile2.
    erewrite exists_in_file; [|by rewrite set_files_files, lookup_insert_eq].
    by rewrite set_files_files, lookup_insert_eq. }
  split; [|split; [|split]].
  - intros s a b Hsteps Hfin.
    destruct (guarded_serializable no_faults (user_cred_lock self1)
                update1 body1 update2 body2 w E1 E2 (H1 0) (H2 0) s a b
                Hsteps Hfin)
      as (HL & [(-> & -> & Hd)|(-> & -> & Hd)]).
    + split; [done|]. split; [by subst update2; erewrite update_ok|].
      split; [done|]. split; [by left|].
      exists (<[sender self2 := user_credentials self2]>
                (<[sender self1 := user_credentials self1]> m)).
      split; [|split; [|split]].
      * rewrite Hd. rewrite run_read_creds_file, <-Hfile2, <-run_read_creds_file.
        by apply (update_keeps_later_change self2 self1 w m).
      * by rewrite lookup_insert_ne, lookup_insert_eq.
      * by rewrite lookup_insert_eq.
      * intros x Hx1 Hx2. by rewrite !lookup_insert_ne.
    + split; [by subst update1; erewrite update_ok|]. split; [done|].
      split; [done|]. split; [by right|].
      exists (<[sender self1 := user_credentials self1]>
                (<[sender self2 := user_credentials self2]> m)).
      split; [|split; [|split]].
      * rewrite Hd. by apply (update_keeps_later_change self1 self2 w m).
      * by rewrite lookup_insert_eq.
      * by rewrite lookup_insert_ne, lookup_insert_eq.
      * intros x Hx1 Hx2. by rewrite !lookup_insert_ne.
  - destruct (guarded_finishes no_faults (user_cred_lock self1)
                update1 body1 update2 body2 w E1 E2 (H1 0) (H2 0))
      as (s & Hsteps & Hfin).
    exists s. split; [done|]. rewrite Hu1 in Hfin.
    replace ((run no_faults update2 (run no_faults update1 w).2).1)
      with (Ok tt : result unit) in Hfin; [done|].
    subst update2. by erewrite update_ok.
  - intros s Hsteps.
    by apply (guarded_no_deadlock no_faults (user_cred_lock self1)
                update1 body1 update2 body2 w E1 E2 (H1 0) (H2 0)).
  - intros s a b Hsteps Hfin.
    destruct (guarded_serializable no_faults (user_cred_lock self1)
                update1 body1 (_read_creds_file reader) bodyr w E1 Er
                (H1 0) (Hr 1) s a b Hsteps Hfin)
      as (HL & [(-> & -> & Hd)|(-> & -> & Hd)]).
    + split; [done|]. right.
      by rewrite run_read_creds_file, Hfile, <-Hfile2, <-run_read_creds_file.
    + split.
      * by rewrite read_leaves_world.
      * left. by rewrite run_read_creds_file, Hfile, <-run_read_creds_file.
Qed.

End concurrent_updates.

Lemma concurrent_updates_linearizable_witness :
  MailSender.sender ex_self ≠ MailSender.sender ex_other
  ∧ (run no_faults (MailSender._read_creds_file ex_self) ex_world).1
    = Ok (PyDict ex_stored)
  ∧ ∃ s, rtc (step no_faults)
             (System (MailSender._update_creds ex_self)
                     (MailSender._update_creds ex_other) ∅ ex_world) s
         ∧ finished s (Ok tt) (Ok tt).
Proof.
  split; [discriminate|]. split; [vm_compute; reflexivity|].
  apply (concurrent_updates_linearizable ex_self ex_other ex_self ex_world
           ex_stored); try reflexivity.
  discriminate.
Defined.

(** ** The scenarios of the test suite *)

Example test_creation :
  ∃ self, (run no_faults (mail_sender "foo@base.com" ex_domains ex_kwargs)
               ex_test_world).1
          = Ok (SubclassInstance "test_service" self)
          ∧ MailSender.sender self = "foo@base.com".
Proof. eexists. split; vm_compute; reflexivity. Qed.

Example test_bad_module :
  (run no_faults (mail_sender "foo@bad.server" ex_domains ex_kwargs)
       ex_test_world).1
  = Raise (MailSenderUnsupportedException (Some ModuleNotFoundError)
             "nope:Sender for email domain bad.server unknown)").
Proof. vm_compute. reflexivity. Qed.

Example test_bad_domain :
  (run no_faults (mail_sender "foo@nosuchdomain" ex_domains ex_kwargs)
       ex_test_world).1
  = Raise (MailSenderException None "Domain nosuchdomain isn't recognized").
Proof. vm_compute. reflexivity. Qed.

Example test_no_sender :
  (run no_faults (mail_sender EmptyString ex_domains ex_kwargs) ex_test_world).1
  = Raise (MailSenderException None "sender is required").
Proof. vm_compute. reflexivity. Qed.

Example missing_class :
  (run no_faults (mail_sender "foo@missing.com" ex_domains ex_kwargs)
       ex_test_world).1
  = Raise (MailSenderUnsupportedException (Some AttributeError)
             "test_mail_sender:Nope for email domain missing.com unknown)").
Proof. vm_compute. reflexivity. Qed.

Example not_a_mail_sender :
  (run no_faults (mail_sender "foo@other.com" ex_domains ex_kwargs)
       ex_test_world).1
  = Raise (MailSenderException None
             "test_mail_sender:Test for other.com is not a MailSender").
Proof. vm_compute. reflexivity. Qed.

(** A credential file that is not text in the encoding of [open]: reading
    it raises [UnicodeDecodeError], which nothing wraps, and an update
    raises the same and leaves the file alone. *)
Example undecodable_file :
  (run no_faults (MailSender._read_creds_file ex_self) (ex_world_with NotText)).1
  = Raise (Builtin UnicodeDecodeError)
  ∧ run no_faults (MailSender._update_creds ex_self) (ex_world_with NotText)
    = (Raise (Builtin UnicodeDecodeError), ex_world_with NotText).
Proof. split; vm_compute; reflexivity. Qed.

(** [os.makedirs] on a fresh home directory: the credential directory is
    made together with its two missing ancestors; below a regular file it
    raises and makes nothing. *)
Example makedirs_ancestors :
  let w := {| files := {[ "/etc/passwd" := File Junk 420 ]};
              dirs := {[ "/"; "/home"; "/etc" ]}; environ := ∅;
              user_config_dir := "/home/u/.config/MailSender"; modules := ∅ |} in
  missing_ancestors w "/home/u/.config/MailSender" = ["/home/u"; "/home/u/.config"]
  ∧ (makedirs_result no_faults w "/home/u/.config/MailSender").1 = Ok tt
  ∧ makedirs_result no_faults w "/etc/passwd/x/y" = (Raise (Builtin OSError), w).
Proof. repeat split; vm_compute; reflexivity. Qed.

(** * Further properties of the credential store *)

Section store_extras.
Import MailSender.

(** A path that exists but cannot be opened for reading (an I/O error, or
    a directory) makes the read raise [MailSenderException] with the
    [IOError] as cause and the path in the message.  The read took the
    handle's lock for it, and did nothing else to the file system. *)
Theorem read_open_failure_wrapped O self w :
  exists_in w (user_cred_file self) = true →
  read_fails O = true ∨ files w !! user_cred_file self = None →
  (run O (_read_creds_file self) w).1
  = Raise (MailSenderException (Some OSError)
             ("Error opening " ++ user_cred_file self))
  ∧ acquired O (_read_creds_file self) w = [user_cred_lock self]
  ∧ (run O (_read_creds_file self) w).2 = w.
Proof.
  intros He Hfail. rewrite acquired_read_creds_file, run_read_creds_file.
  split; [|done]. unfold read_result. rewrite He. cbn [fst].
  destruct (files w !! user_cred_file self) as [f|]; [|done].
  destruct Hfail as [->|?]; done.
Qed.

Lemma read_open_failure_wrapped_witness :
  exists_in (set_dirs (union {[ ex_creds_file ]}) ex_empty_world) ex_creds_file = true
  ∧ (run no_faults (_read_creds_file ex_self)
         (set_dirs (union {[ ex_creds_file ]}) ex_empty_world)).1
    = Raise (MailSenderException (Some OSError)
               ("Error opening " ++ ex_creds_file))
  ∧ acquired no_faults (_read_creds_file ex_self)
        (set_dirs (union {[ ex_creds_file ]}) ex_empty_world)
    = [ex_creds_file ++ ".lock"].
Proof.
  split; [vm_compute; reflexivity|].
  destruct (read_open_failure_wrapped no_faults ex_self
              (set_dirs (union {[ ex_creds_file ]}) ex_empty_world))
    as (Hres & Hlock & _).
  - vm_compute; reflexivity.
  - right. reflexivity.
  - split; [exact Hres|exact Hlock].
Defined.

Lemma read_result_holds_mapping O w p m :
  holds_mapping w p m → read_fails O = false →
  read_result O w p = Ok (PyDict m).
Proof.
  intros [[He ->]|(f & Hf & Hd)] HO; unfold read_result.
  - by rewrite He.
  - by rewrite (exists_in_file _ _ _ Hf), Hf, HO, Hd.
Qed.

(** The constructor loads the sender's record: with the directory in place
    and a mapping at the credential path, it returns a handle bound to the
    sender, the domain specification and the options it was given, whose
    credentials are the sender's record in the file, or the empty mapping
    when the sender has none (or an empty or otherwise false one).  On
    the way it takes the lock [<creds>.lock], which creates the lock file
    when this is the first use of the credential file. *)
Theorem init_loads_credentials O s domain_spec kwargs w p m :
  creds_file_setting kwargs w = PyStr p →
  makedirs_fails O = false → read_fails O = false →
  path_split_head p ∈ dirs w →
  holds_mapping w p m →
  ∃ self,
    (run O (__init__ s domain_spec kwargs) w).1 = Ok self
    ∧ user_credentials self
      = match m !! s with
        | Some v => if truthy v then v else PyDict ∅
        | None => PyDict ∅
        end
    ∧ sender self = s ∧ MailSender.domain_spec self = domain_spec
    ∧ MailSender.kwargs self = kwargs ∧ user_cred_file self = p
    ∧ user_cred_lock self = p ++ ".lock"
    ∧ acquired O (__init__ s domain_spec kwargs) w = [p ++ ".lock"].
Proof.
  intros Hset Hmk Hrd Hdir Hm. rewrite acquired_init, run_init.
  unfold init_result. rewrite Hset. unfold makedirs_result. cbn [handle].
  rewrite Hmk. rewrite bool_decide_eq_true_2 by done.
  rewrite (read_result_holds_mapping O w p m Hm Hrd). cbn [py_get].
  eexists. split; [done|]. cbn. split; [|done].
  by destruct (m !! s).
Qed.

Lemma init_loads_credentials_witness :
  creds_file_setting ex_kwargs ex_world = PyStr ex_creds_file
  ∧ ∃ self,
      (run no_faults (__init__ "nobody@base.com" PyNone ex_kwargs) ex_world).1
      = Ok self
      ∧ user_credentials self = PyDict ∅
      ∧ acquired no_faults (__init__ "nobody@base.com" PyNone ex_kwargs) ex_world
        = [ex_creds_file ++ ".lock"].
Proof.
  split; [reflexivity|].
  destruct (init_loads_credentials no_faults "nobody@base.com" PyNone ex_kwargs
              ex_world ex_creds_file ex_stored)
    as (self & Hrun & Hcreds & _ & _ & _ & _ & _ & Hlock).
  - reflexivity.
  - reflexivity.
  - reflexivity.
  - apply (bool_decide_unpack _). vm_compute. exact I.
  - right. eexists. split; reflexivity.
  - exists self. split; [exact Hrun|]. split; [exact Hcreds|exact Hlock].
Defined.




Lemma path_split_head_no_slash name :
  str_contains slash name = false → path_split_head name = EmptyString.
Proof.
  intros H. unfold path_split_head. by rewrite (upto_last_slash_no_slash _ H).
Qed.

Lemma set_dirs_nothing w : set_dirs (union ∅) w = w.
Proof. destruct w. unfold set_dirs. cbn. f_equal. apply (left_id_L ∅ (∪)). Qed.

(** When the credential directory cannot be created, or the credential
    path has no directory part at all (a bare file name, for which
    [path.split] gives the empty string), the constructor raises the bare
    [OSError] of [os.makedirs].  No file is touched and no lock taken, so
    no lock file appears; for the bare file name no directory is made
    either. *)
Theorem init_directory_failure O s domain_spec kwargs w p :
  creds_file_setting kwargs w = PyStr p →
  makedirs_fails O = true
  ∨ (str_contains slash p = false ∧ EmptyString ∉ dirs w) →
  let out := run O (__init__ s domain_spec kwargs) w in
  out.1 = Raise (Builtin OSError)
  ∧ is_MailSenderException (Builtin OSError) = false
  ∧ files out.2 = files w
  ∧ acquired O (__init__ s domain_spec kwargs) w = []
  ∧ (str_contains slash p = false → out.2 = w).
Proof.
  intros Hset Hfail out. subst out. rewrite acquired_init, run_init.
  unfold init_result. rewrite Hset. unfold makedirs_result. cbn [handle].
  destruct (makedirs_fails O) eqn:Hmk.
  - cbn [fst snd]. repeat split; try done.
    intros Hp. rewrite (path_split_head_no_slash _ Hp).
    change (missing_ancestors w "") with (@nil string).
    rewrite take_nil. apply set_dirs_nothing.
  - destruct Hfail as [?|[Hp Hd]]; [done|].
    rewrite (path_split_head_no_slash _ Hp).
    by rewrite bool_decide_eq_false_2.
Qed.

Lemma init_directory_failure_witness :
  creds_file_setting {[ "creds_file" := PyStr "creds.yml" ]} ex_world
  = PyStr "creds.yml"
  ∧ (run no_faults
       (__init__ "foo@base.com" PyNone {[ "creds_file" := PyStr "creds.yml" ]})
       ex_world).1 = Raise (Builtin OSError)
  ∧ (run no_faults
       (__init__ "foo@base.com" PyNone {[ "creds_file" := PyStr "creds.yml" ]})
       ex_world).2 = ex_world
  ∧ acquired no_faults
      (__init__ "foo@base.com" PyNone {[ "creds_file" := PyStr "creds.yml" ]})
      ex_world = [].
Proof.
  split; [reflexivity|].
  destruct (init_directory_failure no_faults "foo@base.com" PyNone
              {[ "creds_file" := PyStr "creds.yml" ]} ex_world "creds.yml")
    as (Hres & _ & _ & Hlock & Hworld).
  - reflexivity.
  - right. split; [reflexivity|].
    apply (bool_decide_eq_false_1 (EmptyString ∈ dirs ex_world)).
    vm_compute. reflexivity.
  - split; [exact Hres|]. split; [by apply Hworld|exact Hlock].
Defined.

End store_extras.

Section update_extras.
Import MailSender.

Lemma exists_in_after_temp_insert w p f :
  exists_in (set_files (insert (p ++ ".temp") f) w) p = exists_in w p.
Proof. unfold exists_in. by rewrite lookup_after_temp_insert. Qed.

Lemma read_result_after_temp_insert O w p f :
  read_result O (set_files (insert (p ++ ".temp") f) w) p = read_result O w p.
Proof.
  unfold read_result.
  by rewrite exists_in_after_temp_insert, lookup_after_temp_insert.
Qed.


(** An update never overwrites a store it could not read: when the read
    raises, the update raises the same exception and changes nothing. *)
Theorem update_unreadable_store_untouched O self w e :
  (run O (_read_creds_file self) w).1 = Raise e →
  run O (_update_creds self) w = (Raise e, w).
Proof.
  rewrite run_read_creds_file, run_update_creds. unfold update_result.
  cbn [fst]. by intros ->.
Qed.

Lemma update_unreadable_store_untouched_witness :
  (run no_faults (_read_creds_file ex_self) (ex_world_with Junk)).1
  = Raise (Builtin YAMLError)
  ∧ run no_faults (_update_creds ex_self) (ex_world_with Junk)
    = (Raise (Builtin YAMLError), ex_world_with Junk).
Proof.
  split; [vm_compute; reflexivity|].
  apply (update_unreadable_store_untouched no_faults ex_self (ex_world_with Junk)).
  vm_compute; reflexivity.
Defined.

(** Two successful updates in a row on the same file, in closed form. *)
Lemma update_after_update self1 self2 w m :
  (run no_faults (_read_creds_file self1) w).1 = Ok (PyDict m) →
  user_cred_file self2 = user_cred_file self1 →
  run no_faults (_update_creds self2) (run no_faults (_update_creds self1) w).2
  = (Ok tt,
     set_files
       (λ fs, <[user_cred_file self1 :=
                  File (Yaml (PyDict (<[sender self2 := user_credentials self2]>
                                        (<[sender self1 := user_credentials self1]> m))))
                       mode_0600]>
                (delete (user_cred_file self1 ++ ".temp") fs)) w).
Proof.
  intros Hread Hfile.
  rewrite (update_ok no_faults self1 w m Hread) by done. cbn [snd].
  erewrite (update_ok no_faults self2 _
              (<[sender self1 := user_credentials self1]> m)); [|
    rewrite run_read_creds_file, Hfile; cbn [fst]; unfold read_result;
    erewrite exists_in_file; [|by rewrite set_files_files, lookup_insert_eq];
    by rewrite set_files_files, lookup_insert_eq |done..].
  rewrite Hfile, set_files_set_files. f_equal. apply set_files_ext.
  unfold compose, temp_mode. rewrite !set_files_files.
  rewrite (lookup_insert_ne _ _ _ _ (temp_ne (user_cred_file self1))).
  rewrite lookup_delete_eq.
  rewrite delete_insert_ne by (intros H; by apply (temp_ne (user_cred_file self1))).
  by rewrite insert_insert_eq, delete_delete_eq.
Qed.

(** Updates for two different senders commute: in either order both
    succeed and leave the same world behind. *)
Theorem updates_commute self1 self2 w m :
  (run no_faults (_read_creds_file self1) w).1 = Ok (PyDict m) →
  user_cred_file self2 = user_cred_file self1 →
  sender self1 ≠ sender self2 →
  run no_faults (_update_creds self2) (run no_faults (_update_creds self1) w).2
  = run no_faults (_update_creds self1) (run no_faults (_update_creds self2) w).2
  ∧ (run no_faults (_update_creds self2)
         (run no_faults (_update_creds self1) w).2).1 = Ok tt.
Proof.
  intros Hread Hfile Hne.
  rewrite (update_after_update self1 self2 w m Hread Hfile).
  rewrite (update_after_update self2 self1 w m); [|
    by rewrite run_read_creds_file, Hfile, <-run_read_creds_file|done].
  split; [|done]. rewrite Hfile. f_equal. apply set_files_ext.
  by rewrite (insert_insert_ne _ _ _ _ _ Hne).
Qed.

Lemma updates_commute_witness :
  sender ex_self ≠ sender ex_other
  ∧ run no_faults (_update_creds ex_other)
        (run no_faults (_update_creds ex_self) ex_world).2
    = run no_faults (_update_creds ex_self)
          (run no_faults (_update_creds ex_other) ex_world).2.
Proof.
  split; [discriminate|].
  apply (updates_commute ex_self ex_other ex_world ex_stored).
  - vm_compute; reflexivity.
  - reflexivity.
  - discriminate.
Defined.

(** Repeating an update changes nothing more: the second run succeeds and
    every file holds what it held after the first; when no stale temporary
    file was around, the world after the second run is the world after the
    first. *)
Theorem update_idempotent self w m :
  (run no_faults (_read_creds_file self) w).1 = Ok (PyDict m) →
  let w1 := (run no_faults (_update_creds self) w).2 in
  let out := run no_faults (_update_creds self) w1 in
  out.1 = Ok tt
  ∧ (∀ q, f_data <$> files out.2 !! q = f_data <$> files w1 !! q)
  ∧ (files w !! (user_cred_file self ++ ".temp") = None → out.2 = w1).
Proof.
  intros Hread w1 out.
  assert (Hout : out = _) by exact (update_after_update self self w m Hread eq_refl).
  assert (Hw1 : w1 = _)
    by exact (f_equal snd (update_ok no_faults self w m Hread eq_refl eq_refl eq_refl eq_refl)).
  rewrite Hout, Hw1. cbn [fst snd]. rewrite insert_insert_eq.
  split; [done|]. split.
  - intros q. rewrite !set_files_files.
    destruct (decide (q = user_cred_file self)) as [->|Hq].
    + by rewrite !lookup_insert_eq.
    + by rewrite !lookup_insert_ne.
  - intros Htmp. unfold temp_mode. by rewrite Htmp.
Qed.

Lemma update_idempotent_witness :
  (run no_faults (_read_creds_file ex_self) ex_world).1 = Ok (PyDict ex_stored)
  ∧ (run no_faults (_update_creds ex_self)
         (run no_faults (_update_creds ex_self) ex_world).2).2
    = (run no_faults (_update_creds ex_self) ex_world).2.
Proof.
  split; [vm_compute; reflexivity|].
  apply (update_idempotent ex_self ex_world ex_stored).
  - vm_compute; reflexivity.
  - reflexivity.
Defined.

(** The credential file takes over the mode of the temporary file: where a
    temporary file was left from before, [os.open] truncates it and keeps
    its mode, so the mode argument 0600 does not apply. *)
Theorem update_inherits_temp_mode self w m stale :
  (run no_faults (_read_creds_file self) w).1 = Ok (PyDict m) →
  files w !! (user_cred_file self ++ ".temp") = Some stale →
  files (run no_faults (_update_creds self) w).2 !! user_cred_file self
  = Some (File (safe_dump (PyDict (<[sender self := user_credentials self]> m)))
               (f_mode stale)).
Proof.
  intros Hread Hstale.
  rewrite (update_ok no_faults self w m Hread) by done. cbn [snd].
  rewrite set_files_files, lookup_insert_eq. unfold temp_mode. by rewrite Hstale.
Qed.

Lemma update_inherits_temp_mode_witness :
  files (set_files (insert (ex_creds_file ++ ".temp") (File Junk 420)) ex_world)
    !! (ex_creds_file ++ ".temp") = Some (File Junk 420)
  ∧ f_mode <$> files (run no_faults (_update_creds ex_self)
                  (set_files (insert (ex_creds_file ++ ".temp") (File Junk 420))
                     ex_world)).2 !! ex_creds_file
    = Some 420%Z.
Proof.
  split; [reflexivity|].
  rewrite (update_inherits_temp_mode ex_self
             (set_files (insert (ex_creds_file ++ ".temp") (File Junk 420)) ex_world)
             ex_stored (File Junk 420)).
  - reflexivity.
  - vm_compute; reflexivity.
  - reflexivity.
Defined.

Lemma read_result_no_faults O w p v :
  read_result O w p = Ok v → read_result no_faults w p = Ok v.
Proof.
  unfold read_result. destruct (exists_in w p); [|done].
  destruct (files w !! p) as [f|]; [|done].
  by destruct (read_fails O).
Qed.

(** A failed update has no lasting effect: retrying it with nothing
    failing gives exactly what a direct update would have given, also when
    the failure left a half-written temporary file behind. *)
Theorem failed_update_then_retry O self w e :
  (run O (_update_creds self) w).1 = Raise e →
  run no_faults (_update_creds self) (run O (_update_creds self) w).2
  = run no_faults (_update_creds self) w.
Proof.
  rewrite (run_update_creds O). unfold update_result at 1 2.
  destruct (read_result O w (user_cred_file self)) as [v|] eqn:Hread; [|done].
  destruct (py_setitem v _ _) as [new|] eqn:Hset; [|done].
  destruct (os_open_fails O); [done|].
  assert (Hretry : ∀ c,
    run no_faults (_update_creds self)
      (set_files (insert (user_cred_file self ++ ".temp")
                    (File c (temp_mode w (user_cred_file self ++ ".temp")))) w)
    = run no_faults (_update_creds self) w).
  { intros c. rewrite !run_update_creds. unfold update_result.
    rewrite read_result_after_temp_insert.
    rewrite (read_result_no_faults _ _ _ _ Hread), Hset.
    cbn [os_open_fails os_write_fails os_replace_fails no_faults].
    rewrite set_files_set_files. f_equal. apply set_files_ext.
    unfold compose, temp_mode. rewrite !set_files_files, lookup_insert_eq.
    cbn [f_mode]. by rewrite delete_insert_eq. }
  destruct (os_write_fails O) as [torn|]; [intros _; apply Hretry|].
  destruct (os_replace_fails O); [intros _; apply Hretry|done].
Qed.

Lemma failed_update_then_retry_witness :
  (run ex_write_fails (_update_creds ex_self) ex_world).1
  = Raise (MailSenderException (Some OSError)
             ("Problem writing new credentials " ++ ex_creds_file ++ ".temp"))
  ∧ run no_faults (_update_creds ex_self)
        (run ex_write_fails (_update_creds ex_self) ex_world).2
    = run no_faults (_update_creds ex_self) ex_world.
Proof.
  split; [vm_compute; reflexivity|].
  apply (failed_update_then_retry ex_write_fails ex_self ex_world
           (MailSenderException (Some OSError)
              ("Problem writing new credentials " ++ ex_creds_file ++ ".temp"))).
  vm_compute; reflexivity.
Defined.

(** What a failing step of the update comes to.  A failing [os.open]
    raises [MailSenderException] "Can't write <file>" and changes nothing;
    a raising [os.write] raises [MailSenderException] "Problem writing new
    credentials <file>.temp" and leaves what it had written in the
    temporary file; a failing [os.replace] raises "Can't write <file>"
    again.  Each carries the [OSError] as its cause, and whenever the
    update raises, the credential file is what it was.  The temporary
    file is in the directory of the credential file. *)
Theorem update_failure_leaves_target O self w m :
  (run O (_read_creds_file self) w).1 = Ok (PyDict m) →
  let p := user_cred_file self in
  let tmp := p ++ ".temp" in
  let out := run O (_update_creds self) w in
  (os_open_fails O = true →
     out = (Raise (MailSenderException (Some OSError) ("Can't write " ++ p)), w))
  ∧ (∀ torn, os_open_fails O = false → os_write_fails O = Some torn →
       out.1 = Raise (MailSenderException (Some OSError)
                        ("Problem writing new credentials " ++ tmp))
       ∧ f_data <$> files out.2 !! tmp = Some torn)
  ∧ (os_open_fails O = false → os_write_fails O = None →
     os_replace_fails O = true →
       out.1 = Raise (MailSenderException (Some OSError) ("Can't write " ++ p)))
  ∧ (∀ e, out.1 = Raise e → files out.2 !! p = files w !! p)
  ∧ path_split_head tmp = path_split_head p.
Proof.
  intros Hread p tmp out.
  assert (Hout : out = update_result O self w) by apply run_update_creds.
  revert Hread. rewrite run_read_creds_file. cbn [fst]. intros Hread.
  unfold update_result in Hout. rewrite Hread in Hout. cbn [py_setitem] in Hout.
  fold p tmp in Hout.
  split_and!.
  - intros Hopen. by rewrite Hout, Hopen.
  - intros torn Hopen Hwrite. rewrite Hout, Hopen, Hwrite. cbn [fst snd].
    split; [done|]. by rewrite set_files_files, lookup_insert_eq.
  - intros Hopen Hwrite Hreplace. by rewrite Hout, Hopen, Hwrite, Hreplace.
  - intros e. subst out. apply update_raise_leaves_target.
  - apply temp_same_directory.
Qed.

Lemma update_failure_leaves_target_witness :
  (run ex_write_fails (_read_creds_file ex_self) ex_world).1 = Ok (PyDict ex_stored)
  ∧ (run ex_write_fails (_update_creds ex_self) ex_world).1
    = Raise (MailSenderException (Some OSError)
               ("Problem writing new credentials " ++ ex_creds_file ++ ".temp"))
  ∧ f_data <$> files (run ex_write_fails (_update_creds ex_self) ex_world).2
                 !! (ex_creds_file ++ ".temp") = Some Junk
  ∧ files (run ex_write_fails (_update_creds ex_self) ex_world).2 !! ex_creds_file
    = files ex_world !! ex_creds_file.
Proof.
  split; [vm_compute; reflexivity|].
  destruct (update_failure_leaves_target ex_write_fails ex_self ex_world ex_stored)
    as (_ & Hwrite & _ & Htarget & _); [vm_compute; reflexivity|].
  destruct (Hwrite Junk) as [Hres Htemp]; [reflexivity..|].
  split; [exact Hres|]. split; [exact Htemp|]. by eapply Htarget.
Defined.

End update_extras.

(** * Further properties: the lock under failures *)

Section lock_extras.
Import MailSender.

Lemma serial_exclusion O l {A B} (body1 : py A) (body2 : py B) w s :
  serial O l body1 body2 w s →
  (∀ d, locks s !! l = Some (P1, d) →
        proc2 s = with_lock l body2 ∨ ∃ b, proc2 s = Ret b)
  ∧ (∀ d, locks s !! l = Some (P2, d) →
          proc1 s = with_lock l body1 ∨ ∃ a, proc1 s = Ret a).
Proof.
  intros Hs. destruct Hs; cbn [locks proc1 proc2]; split; intros d0;
    rewrite ?lookup_empty, ?lookup_singleton_eq; intros Hl; simplify_eq;
    eauto.
Qed.

(** Whatever fails in them, two updates on the same lock run one at a
    time: while one process holds the lock the other has not entered its
    update or has returned from it; every complete run leaves the lock
    free, with the results and the world of running one update entirely
    before the other (an update that raises releases the lock like one that
    succeeds); some run completes, and no run deadlocks. *)
Theorem updates_serialized_under_faults O self1 self2 w :
  user_cred_lock self2 = user_cred_lock self1 →
  let update1 := _update_creds self1 in
  let update2 := _update_creds self2 in
  let both := System update1 update2 ∅ w in
  (∀ s d, rtc (step O) both s →
     (locks s !! user_cred_lock self1 = Some (P1, d) →
        proc2 s = update2 ∨ ∃ b, proc2 s = Ret b)
     ∧ (locks s !! user_cred_lock self1 = Some (P2, d) →
          proc1 s = update1 ∨ ∃ a, proc1 s = Ret a))
  ∧ (∀ s a b, rtc (step O) both s → finished s a b →
       locks s = ∅
       ∧ ((a = (run O update1 w).1 ∧ b = (run O update2 (run O update1 w).2).1
           ∧ disk s = (run O update2 (run O update1 w).2).2)
          ∨ (b = (run O update2 w).1 ∧ a = (run O update1 (run O update2 w).2).1
             ∧ disk s = (run O update1 (run O update2 w).2).2)))
  ∧ (∃ s a b, rtc (step O) both s ∧ finished s a b)
  ∧ (∀ s, rtc (step O) both s → (∃ a b, finished s a b) ∨ ∃ s', step O s s').
Proof.
  intros Hlock update1 update2 both.
  destruct (update_creds_guarded self1) as (body1 & E1 & H1).
  destruct (update_creds_guarded self2) as (body2 & E2 & H2).
  rewrite Hlock in E2, H2.
  split; [|split; [|split]].
  - intros s d Hsteps. subst both update1 update2. rewrite E1, E2 in Hsteps |- *.
    apply (serial_reachable O _ body1 body2 w (H1 0) (H2 0)) in Hsteps.
    destruct (serial_exclusion O _ body1 body2 w s Hsteps) as [Hx1 Hx2].
    split; [apply Hx1|apply Hx2].
  - intros s a b.
    apply (guarded_serializable O (user_cred_lock self1)
             update1 body1 update2 body2 w E1 E2 (H1 0) (H2 0)).
  - destruct (guarded_finishes O (user_cred_lock self1)
                update1 body1 update2 body2 w E1 E2 (H1 0) (H2 0))
      as (s & Hsteps & Hfin).
    by exists s, (run O update1 w).1, (run O update2 (run O update1 w).2).1.
  - apply (guarded_no_deadlock O (user_cred_lock self1)
             update1 body1 update2 body2 w E1 E2 (H1 0) (H2 0)).
Qed.

Lemma updates_serialized_under_faults_witness :
  user_cred_lock ex_other = user_cred_lock ex_self
  ∧ ∃ s a b,
      rtc (step ex_write_fails)
          (System (_update_creds ex_self) (_update_creds ex_other) ∅ ex_world) s
      ∧ finished s a b.
Proof.
  split; [reflexivity|].
  apply (updates_serialized_under_faults ex_write_fails ex_self ex_other ex_world).
  reflexivity.
Defined.

End lock_extras.

(** * Further properties of the factory *)

Section factory_extras.
Context (O : faults).

(** A well-formed address whose domain is missing from the table, or has
    an empty or otherwise false entry there, is refused with
    [MailSenderException] naming the domain; nothing is touched. *)
Theorem unknown_domain addr domain conf kwargs w :
  str_contains at_sign addr = false →
  str_contains at_sign domain = false →
  conf !! domain = None ∨ (∃ v, conf !! domain = Some v ∧ truthy v = false) →
  run O (mail_sender (addr ++ "@" ++ domain) conf kwargs) w
  = (Raise (MailSenderException None
              ("Domain " ++ domain ++ " isn't recognized")), w).
Proof.
  intros Ha Hd Hconf. unfold mail_sender.
  rewrite truthy_str by apply app_nonempty. cbn [negb].
  rewrite (split_address _ _ Ha Hd).
  destruct Hconf as [->|(v & -> & Hv)]; cbn [default from_option id];
    [done|by rewrite Hv].
Qed.

(** A specification that names no protocol, or names ["smtp"], gives the
    built-in SMTP sender, constructed with the sender address, the
    specification and the options as they were passed in. *)
Lemma mail_sender_smtp addr domain conf spec kwargs w :
  str_contains at_sign addr = false →
  str_contains at_sign domain = false →
  conf !! domain = Some (PyDict spec) → spec ≠ ∅ →
  spec !! "protocol" = None ∨ spec !! "protocol" = Some (PyStr "smtp") →
  run O (mail_sender (addr ++ "@" ++ domain) conf kwargs) w
  = (Ok (SMTPSender (addr ++ "@" ++ domain) (PyDict spec) kwargs), w).
Proof.
  intros Ha Hd Hconf Hne Hproto.
  rewrite (mail_sender_protocol _ _ _ _ _ _ _ Ha Hd Hconf Hne). cbv zeta.
  by destruct Hproto as [->| ->].
Qed.

Lemma builtin_domain_entry domain spec :
  _BUILTIN_DOMAINS !! domain = Some spec →
  str_contains at_sign domain = false
  ∧ ∃ d, spec = PyDict d ∧ d ≠ ∅
         ∧ (d !! "protocol" = None ∨ d !! "protocol" = Some (PyStr "smtp"))
         ∧ is_Some (d !! "server").
Proof.
  unfold _BUILTIN_DOMAINS, _OUTLOOK_SERVER. intros H.
  repeat (apply lookup_insert_Some in H as [[<- <-]|[_ H]];
          [split; [reflexivity|];
           eexists; split; [reflexivity|];
           split; [apply insert_non_empty|]; split;
           [first [by left|by right]|by eexists]|]).
  apply lookup_singleton_Some in H as [<- <-].
  split; [reflexivity|]. eexists. split; [reflexivity|].
  split; [apply insert_non_empty|]. split; [by left|by eexists].
Qed.

(** Every domain of the built-in table is served by the built-in SMTP
    sender, constructed with the table's entry for the domain, which names
    a server. *)
Theorem builtin_domains_smtp addr domain spec kwargs w :
  str_contains at_sign addr = false →
  _BUILTIN_DOMAINS !! domain = Some spec →
  run O (mail_sender (addr ++ "@" ++ domain) _BUILTIN_DOMAINS kwargs) w
  = (Ok (SMTPSender (addr ++ "@" ++ domain) spec kwargs), w)
  ∧ ∃ server, py_get spec "server" = Ok (PyStr server).
Proof.
  intros Ha Hspec.
  destruct (builtin_domain_entry _ _ Hspec) as (Hd & d & -> & Hne & Hp & Hs).
  split; [by apply mail_sender_smtp|].
  revert Hspec Hs. unfold _BUILTIN_DOMAINS, _OUTLOOK_SERVER. intros H _.
  repeat (apply lookup_insert_Some in H as [[<- [= <-]]|[_ H]];
          [by eexists|]).
  apply lookup_singleton_Some in H as [<- [= <-]]. by eexists.
Qed.

End factory_extras.

Lemma unknown_domain_witness :
  run no_faults (mail_sender "foo@nosuchdomain" _BUILTIN_DOMAINS ∅) ex_world
  = (Raise (MailSenderException None "Domain nosuchdomain isn't recognized"),
     ex_world).
Proof.
  apply (unknown_domain no_faults "foo" "nosuchdomain" _BUILTIN_DOMAINS ∅ ex_world).
  - reflexivity.
  - reflexivity.
  - left. reflexivity.
Defined.

Lemma builtin_domains_smtp_witness :
  run no_faults (mail_sender "someone@hotmail.com" _BUILTIN_DOMAINS ex_kwargs)
      ex_world
  = (Ok (SMTPSender "someone@hotmail.com" _OUTLOOK_SERVER ex_kwargs), ex_world).
Proof.
  apply (builtin_domains_smtp no_faults "someone" "hotmail.com" _OUTLOOK_SERVER
           ex_kwargs ex_world).
  - reflexivity.
  - reflexivity.
Defined.

Section dynamic_extras.
Context (O : faults).

(** The dynamic branch for a class derived from [MailSender], in terms of
    what its constructor does. *)
Lemma mail_sender_subclass addr domain conf spec module_ class_ kwargs w
    mod_ name :
  str_contains at_sign addr = false →
  str_contains at_sign domain = false →
  conf !! domain = Some (PyDict spec) →
  spec !! "protocol" = Some (PyStr (module_ ++ ":" ++ class_)) →
  str_contains colon module_ = false →
  modules w !! module_ = Some mod_ →
  mod_ !! class_ = Some (MailSenderSubclass name) →
  run O (mail_sender (addr ++ "@" ++ domain) conf kwargs) w
  = (match (init_result O (addr ++ "@" ++ domain) (PyDict spec) kwargs w).1 with
     | Ok self => Ok (SubclassInstance name self)
     | Raise e =>
         if is_ModuleNotFound_or_Attribute e
         then Raise (MailSenderUnsupportedException (as_cause e)
                       (module_ ++ ":" ++ class_ ++ " for email domain " ++
                        domain ++ " unknown)"))
         else Raise e
     end,
     (init_result O (addr ++ "@" ++ domain) (PyDict spec) kwargs w).2).
Proof.
  intros Ha Hd Hconf Hproto Hm Hmod Hcls.
  rewrite (mail_sender_dynamic _ _ _ _ _ _ _ _ _ Ha Hd Hconf Hproto Hm).
  rewrite run_try_except, run_seq, run_do. cbn [handle]. rewrite Hmod.
  cbn [fst snd]. rewrite run_seq. unfold lift, getattr. rewrite Hcls, run_Ret.
  cbn [fst snd]. rewrite run_seq. unfold construct. rewrite run_seq, run_init.
  destruct (init_result O _ _ _ w) as [[self|e] w1]; cbn [fst snd]; [done|].
  by destruct (is_ModuleNotFound_or_Attribute e).
Qed.


(** A credential file that is not a mapping makes the constructor of a
    dynamically named class raise [AttributeError], and the factory's
    [except (ModuleNotFoundError, AttributeError)] turns that into
    [MailSenderUnsupportedException] "... unknown)", as if the class had
    not been found. *)
Theorem constructor_attribute_error_masked addr domain conf spec module_ class_
    kwargs w mod_ name p f v :
  str_contains at_sign addr = false →
  str_contains at_sign domain = false →
  conf !! domain = Some (PyDict spec) →
  spec !! "protocol" = Some (PyStr (module_ ++ ":" ++ class_)) →
  str_contains colon module_ = false →
  modules w !! module_ = Some mod_ →
  mod_ !! class_ = Some (MailSenderSubclass name) →
  creds_file_setting kwargs w = PyStr p →
  makedirs_fails O = false → read_fails O = false →
  path_split_head p ∈ dirs w →
  files w !! p = Some f → f_data f = Yaml v → is_mapping v = false →
  run O (mail_sender (addr ++ "@" ++ domain) conf kwargs) w
  = (Raise (MailSenderUnsupportedException (Some AttributeError)
              (module_ ++ ":" ++ class_ ++ " for email domain " ++
               domain ++ " unknown)")), w).
Proof.
  intros Ha Hd Hconf Hproto Hm Hmod Hcls Hset Hmk Hrd Hdir Hf Hdata Hv.
  rewrite (mail_sender_subclass _ _ _ _ _ _ _ _ _ _ Ha Hd Hconf Hproto Hm Hmod Hcls).
  unfold init_result. rewrite Hset. unfold makedirs_result. cbn [handle].
  rewrite Hmk. rewrite bool_decide_eq_true_2 by done.
  unfold read_result. rewrite (exists_in_file _ _ _ Hf), Hf, Hrd, Hdata.
  cbn [yaml_load]. by destruct v.
Qed.

(** Malformed configuration escapes the factory as untyped errors: a table
    entry that is true but not a mapping raises [AttributeError]; a
    [protocol] that is [None], a number or a boolean raises [TypeError];
    and a module attribute that is not callable raises [TypeError] through
    the [try] block. *)
Theorem malformed_configuration_untyped addr domain conf kwargs w :
  str_contains at_sign addr = false →
  str_contains at_sign domain = false →
  let out := run O (mail_sender (addr ++ "@" ++ domain) conf kwargs) w in
  (∀ v, conf !! domain = Some v → truthy v = true → is_mapping v = false →
     out = (Raise (Builtin AttributeError), w))
  ∧ (∀ spec v, conf !! domain = Some (PyDict spec) →
       spec !! "protocol" = Some v →
       v = PyNone ∨ (∃ n, v = PyInt n) ∨ (∃ b, v = PyBool b) →
       out = (Raise (Builtin TypeError), w))
  ∧ (∀ spec module_ class_ mod_ x, conf !! domain = Some (PyDict spec) →
       spec !! "protocol" = Some (PyStr (module_ ++ ":" ++ class_)) →
       str_contains colon module_ = false →
       modules w !! module_ = Some mod_ →
       mod_ !! class_ = Some (NotCallable x) →
       out = (Raise (Builtin TypeError), w)).
Proof.
  intros Ha Hd out. subst out. split; [|split].
  - intros v Hconf Hv Hmap. unfold mail_sender.
    rewrite truthy_str by apply app_nonempty. cbn [negb].
    rewrite (split_address _ _ Ha Hd), Hconf. cbn [default from_option id].
    rewrite Hv. cbn [negb]. rewrite run_seq. unfold lift at 1.
    rewrite run_Ret. cbn [fst]. by destruct v.
  - intros spec v Hconf Hproto Hv.
    rewrite (mail_sender_protocol _ _ _ _ _ _ _ Ha Hd Hconf)
      by (intros ->; by rewrite lookup_empty in Hproto).
    cbv zeta. rewrite Hproto. cbn [default from_option id].
    destruct Hv as [->|[[n ->]|[b ->]]]; done.
  - intros spec module_ class_ mod_ x Hconf Hproto Hm Hmod Hcls.
    rewrite (mail_sender_dynamic _ _ _ _ _ _ _ _ _ Ha Hd Hconf Hproto Hm).
    rewrite run_try_except, run_seq, run_do. cbn [handle]. rewrite Hmod.
    cbn [fst snd]. rewrite run_seq. unfold lift, getattr. rewrite Hcls, run_Ret.
    cbn [fst snd]. done.
Qed.

End dynamic_extras.


Lemma constructor_attribute_error_masked_witness :
  files (set_files (λ _, files (ex_world_with (Yaml PyNone))) ex_test_world)
    !! ex_creds_file = Some (File (Yaml PyNone) mode_0600)
  ∧ run no_faults (mail_sender "foo@base.com" ex_domains ex_kwargs)
        (set_files (λ _, files (ex_world_with (Yaml PyNone))) ex_test_world)
    = (Raise (MailSenderUnsupportedException (Some AttributeError)
                "test_mail_sender:TestBase for email domain base.com unknown)"),
       set_files (λ _, files (ex_world_with (Yaml PyNone))) ex_test_world).
Proof.
  split; [reflexivity|].
  apply (constructor_attribute_error_masked no_faults "foo" "base.com" ex_domains
           {[ "protocol" := PyStr "test_mail_sender:TestBase" ]}
           "test_mail_sender" "TestBase" ex_kwargs
           (set_files (λ _, files (ex_world_with (Yaml PyNone))) ex_test_world)
           {[ "TestBase" := MailSenderSubclass "test_service";
              "Test" := OtherClass "Test";
              "SENDER" := NotCallable (PyStr "foo@base.com") ]}
           "test_service" ex_creds_file (File (Yaml PyNone) mode_0600) PyNone);
    reflexivity.
Defined.

Lemma malformed_configuration_untyped_witness :
  run no_faults
    (mail_sender "foo@base.com" {[ "base.com" := PyStr "smtp" ]} ∅) ex_world
  = (Raise (Builtin AttributeError), ex_world).
Proof.
  apply (proj1 (malformed_configuration_untyped no_faults "foo" "base.com"
                  {[ "base.com" := PyStr "smtp" ]} ∅ ex_world eq_refl eq_refl)
           (PyStr "smtp")); reflexivity.
Defined.

(** * Further properties: what the factory never does *)

Section never_writes.















End never_writes.
